(** * tapkee: eigendecomposition-based embedding ([methods/eigen_embedding.hpp])

    A shallow embedding of the three [eigen_embedding_impl] specialisations
    (ARPACK, dense self-adjoint solver, randomized) and of the dispatching
    function [eigen_embedding], together with the properties established
    about them.

    Conventions.
    - [DefaultScalarType] is IEEE-754 binary64 ([double]); it is modelled by
      Rocq's primitive floats, whose operations are the binary64 ones.
    - An Eigen [DenseMatrix] is stored column-major: a row count and the
      list of its columns.
    - [unsigned int] values are integers in [[0, 2^32)]; their addition
      wraps.
    - The collaborators whose code is outside the file (the matrix
      operation, the dense and ARPACK solvers, the QR solve, [rand] and
      libm) are the fields of a record [Env].
    - Eigen's range assertions are taken as enabled (the default build):
      an out-of-range [block] or [tail] stops the call.
    - The [timed_context] objects only measure time and are left out.
    - Which matrix is written by whom is settled on a second form of the
      strategies, over a memory of objects in which the weight matrix has
      a location and the collaborators are arbitrary transformers of the
      memory; that form returns what the first one returns. *)

From Stdlib Require Import ZArith List Bool Lia Floats Uint63.
Import ListNotations.

Local Open Scope Z_scope.

(* ================================================================== *)
(** * Scalars and machine integers *)
(* ================================================================== *)

Definition DefaultScalarType := float.

Definition UINT_MODULUS : Z := 2 ^ 32.

(** [a + b] on [unsigned int]. *)
Definition uadd (a b : Z) : Z := (a + b) mod UINT_MODULUS.

Definition is_uint (a : Z) : Prop := 0 <= a < UINT_MODULUS.

(** The integer [z] (non-negative, below [2^53]) as a [double]: exact. *)
Definition double_of_Z (z : Z) : float := PrimFloat.of_uint63 (Uint63.of_Z z).

(** Rounding of a non-negative integer to binary32 (24 significant bits,
    round to nearest, ties to even); no overflow below [2^128].  This is
    what [(float) r] and a binary32 addition of integer-valued operands
    deliver. *)
Definition binary32_round (z : Z) : Z :=
  let e := Z.log2 z - 23 in
  if e <=? 0 then z
  else
    let q := Z.shiftr z e in
    let rest := z - Z.shiftl q e in
    let half := Z.shiftl 1 (e - 1) in
    let q' :=
      if rest <? half then q
      else if half <? rest then q + 1
      else if Z.even q then q else q + 1 in
    Z.shiftl q' e.

(* ================================================================== *)
(** * Dense vectors and matrices *)
(* ================================================================== *)

Definition DenseVector := list float.

Record DenseMatrix : Type := mkDense {
  rows : nat;
  columns : list DenseVector
}.

Definition cols (M : DenseMatrix) : nat := length (columns M).

(** [M.col(i)] *)
Definition col (M : DenseMatrix) (i : nat) : DenseVector :=
  nth i (columns M) [].

Fixpoint replace_nth {A : Type} (i : nat) (x : A) (l : list A) : list A :=
  match l, i with
  | [], _ => []
  | _ :: t, O => x :: t
  | h :: t, S i' => h :: replace_nth i' x t
  end.

(** Assignment to [M.col(i)]. *)
Definition set_col (M : DenseMatrix) (i : nat) (v : DenseVector)
  : DenseMatrix :=
  mkDense (rows M) (replace_nth i v (columns M)).

(** Sum of the coefficients, from the first one on; [0] for no coefficient
    (Eigen's [sum()]). The order of the additions is the sequential one. *)
Definition vsum (l : DenseVector) : float :=
  match l with
  | [] => 0%float
  | x :: t => fold_left PrimFloat.add t x
  end.

Fixpoint vmul (u v : DenseVector) : DenseVector :=
  match u, v with
  | x :: u', y :: v' => (x * y)%float :: vmul u' v'
  | _, _ => []
  end.

(** [u.dot(v)] *)
Definition dot (u v : DenseVector) : float := vsum (vmul u v).

(** [u.norm()] is [sqrt(u.squaredNorm())]. *)
Definition norm (u : DenseVector) : float := PrimFloat.sqrt (dot u u).

(** [u * c] *)
Definition vscale (c : float) (u : DenseVector) : DenseVector :=
  map (fun x => (x * c)%float) u.

(** [u - r * v], coefficient by coefficient. *)
Fixpoint vsub_scaled (u : DenseVector) (r : float) (v : DenseVector)
  : DenseVector :=
  match u, v with
  | x :: u', y :: v' => (x - r * y)%float :: vsub_scaled u' r v'
  | _, _ => u
  end.

(** [u.setZero()] *)
Definition vzero (u : DenseVector) : DenseVector := map (fun _ => 0%float) u.

(** The empty matrix of [DenseMatrix()]. *)
Definition empty_matrix : DenseMatrix := mkDense 0 [].

(* ================================================================== *)
(** * Orthonormalisation of the randomized strategy (lines 109-123) *)
(* ================================================================== *)

(** The tolerance [1e-4], as the nearest [double]. *)
Definition TOLERANCE : float := 0x1.a36e2eb1c432dp-14%float.

(** One turn of the inner loop:
    [r = Y.col(i).dot(Y.col(j)); Y.col(i) -= r*Y.col(j);] *)
Definition project_out (i : nat) (Y : DenseMatrix) (j : nat) : DenseMatrix :=
  let r := dot (col Y i) (col Y j) in
  set_col Y i (vsub_scaled (col Y i) r (col Y j)).

(** The inner loop [for (j = 0; j < i; j++)]. *)
Definition project_all (Y : DenseMatrix) (i : nat) : DenseMatrix :=
  fold_left (project_out i) (seq 0 i) Y.

(** [for (int k = i; k < Y.cols(); k++) Y.col(k).setZero();] *)
Definition zero_from (Y : DenseMatrix) (i : nat) : DenseMatrix :=
  mkDense (rows Y) (firstn i (columns Y) ++ map vzero (skipn i (columns Y))).

(** The norm the loop body computes for column [i] after the projections. *)
Definition residual_norm (Y : DenseMatrix) (i : nat) : float :=
  norm (col (project_all Y i) i).

(** The body of the outer loop for column [i]. *)
Definition orthonormalize_column (Y : DenseMatrix) (i : nat) : DenseMatrix :=
  let Y1 := project_all Y i in
  let nrm := norm (col Y1 i) in
  let Y2 := if (nrm <? TOLERANCE)%float then zero_from Y1 i else Y1 in
  set_col Y2 i (vscale (1 / nrm)%float (col Y2 i)).

(** The outer loop [for (i = 0; i < Y.cols(); i++)]. *)
Definition orthonormalize (Y : DenseMatrix) : DenseMatrix :=
  fold_left orthonormalize_column (seq 0 (cols Y)) Y.

(** The first [k] turns of the outer loop. *)
Definition orthonormalize_upto (Y : DenseMatrix) (k : nat) : DenseMatrix :=
  fold_left orthonormalize_column (seq 0 k) Y.

(* ================================================================== *)
(** * Eigen operations that check their ranges *)
(* ================================================================== *)

(** How a computation ends: it returns, or an Eigen range assertion stops
    the program.  The source has no [throw] and no error code, so there is
    no third way. *)
Inductive Outcome (A : Type) : Type :=
| Returned (a : A)
| AssertFailed.

Arguments Returned {A} a.
Arguments AssertFailed {A}.

Definition is_returned {A : Type} (o : Outcome A) : bool :=
  match o with
  | Returned _ => true
  | AssertFailed => false
  end.

(** [M.block(startRow, startCol, blockRows, blockCols)] *)
Definition block (M : DenseMatrix) (startRow startCol blockRows blockCols : Z)
  : Outcome DenseMatrix :=
  if (0 <=? startRow) && (0 <=? blockRows)
     && (startRow + blockRows <=? Z.of_nat (rows M))
     && (0 <=? startCol) && (0 <=? blockCols)
     && (startCol + blockCols <=? Z.of_nat (cols M))
  then Returned
         (mkDense (Z.to_nat blockRows)
            (map (fun c =>
                    firstn (Z.to_nat blockRows) (skipn (Z.to_nat startRow) c))
               (firstn (Z.to_nat blockCols)
                  (skipn (Z.to_nat startCol) (columns M)))))
  else AssertFailed.

(** [v.tail(n)] *)
Definition tail (v : DenseVector) (n : Z) : Outcome DenseVector :=
  if (0 <=? n) && (n <=? Z.of_nat (length v))
  then Returned (skipn (length v - Z.to_nat n) v)
  else AssertFailed.

(** Row [i] of a matrix. *)
Definition row (M : DenseMatrix) (i : nat) : DenseVector :=
  map (fun c => nth i c 0%float) (columns M).

(** The product [A * B]. *)
Definition mat_mul (A B : DenseMatrix) : Outcome DenseMatrix :=
  if Nat.eqb (cols A) (rows B)
  then Returned
         (mkDense (rows A)
            (map (fun b => map (fun i => dot (row A i) b) (seq 0 (rows A)))
               (columns B)))
  else AssertFailed.

(** A matrix filled row by row. *)
Definition from_rows (n c : nat) (rws : list (list float)) : DenseMatrix :=
  mkDense n (map (fun j => map (fun r => nth j r 0%float) rws) (seq 0 c)).

(* ================================================================== *)
(** * Result, collaborators and the world of a call *)
(* ================================================================== *)

(** [EmbeddingResult]: the embedding matrix and the eigenvalues. *)
Definition EmbeddingResult : Type := (DenseMatrix * DenseVector)%type.

(** [EmbeddingResult()] *)
Definition empty_result : EmbeddingResult := (empty_matrix, []).

(** What is outside the file: template parameters, library calls, build
    flags and the enumerators of [TAPKEE_EIGEN_EMBEDDING_METHOD]. *)
Record Env : Type := mkEnv {
  MatrixType : Type;
  wm_rows : MatrixType -> nat;
  wm_cols : MatrixType -> nat;
  (** [DenseMatrix dense_wm = wm] *)
  to_dense : MatrixType -> DenseMatrix;
  (** [MatrixTypeOperation(wm)(X)] *)
  operation : MatrixType -> DenseMatrix -> DenseMatrix;
  (** [ArpackGeneralizedSelfAdjointEigenSolver(wm, nev, ARPACK_CODE)]:
      its [eigenvectors()] and [eigenvalues()] *)
  arpack_solver : MatrixType -> Z -> DenseMatrix * DenseVector;
  (** [DefaultDenseSelfAdjointEigenSolver(M)]: its [eigenvectors()] and
      [eigenvalues()] *)
  self_adjoint_eigen : DenseMatrix -> DenseMatrix * DenseVector;
  (** [Y.householderQr().solve(B1)] *)
  householder_qr_solve : DenseMatrix -> DenseMatrix -> DenseMatrix;
  (** [rand()] on the generator's hidden state *)
  RandState : Type;
  rand : RandState -> Z * RandState;
  RAND_MAX : Z;
  log : float -> float;
  cos : float -> float;
  sin : float -> float;
  (** whether the build defines [TAPKEE_NO_ARPACK] *)
  TAPKEE_NO_ARPACK : bool;
  ARPACK : Z;
  RANDOMIZED : Z;
  EIGEN_DENSE_SELFADJOINT_SOLVER : Z
}.

(** What a call does that an observer can see. *)
Inductive Event : Type :=
| RandCall
| OperatorApplied
| QrSolve
| DenseEigenSolve
| ArpackSolve.

(** The memory a call works in: the caller's weight matrix (the object
    behind [const MatrixType& wm]), the state of the process-wide random
    generator and the log of what was done. *)
Record World (E : Env) : Type := mkWorld {
  wm : MatrixType E;
  rng : RandState E;
  trace : list Event
}.

Arguments mkWorld {E} _ _ _.
Arguments wm {E} _.
Arguments rng {E} _.
Arguments trace {E} _.

(** Computations: the world is threaded, an assertion failure ends them. *)
Definition M (E : Env) (A : Type) : Type := World E -> Outcome A * World E.

Definition ret {E : Env} {A : Type} (a : A) : M E A := fun w => (Returned a, w).

Definition bind {E : Env} {A B : Type} (c : M E A) (k : A -> M E B) : M E B :=
  fun w =>
    match c w with
    | (Returned a, w') => k a w'
    | (AssertFailed, w') => (AssertFailed, w')
    end.

(** A range-checked Eigen operation inside a computation. *)
Definition check {E : Env} {A : Type} (o : Outcome A) : M E A :=
  fun w => (o, w).

Definition emit {E : Env} (e : Event) : M E unit :=
  fun w => (Returned tt, mkWorld (wm w) (rng w) (trace w ++ [e])).

(** Reading through the reference [wm]. *)
Definition read_wm {E : Env} : M E (MatrixType E) :=
  fun w => (Returned (wm w), w).

Declare Scope embed_scope.
Delimit Scope embed_scope with embed.
Notation "x <- c ;; k" := (bind c (fun x => k))
  (at level 61, c at next level, right associativity) : embed_scope.
Notation "c ;;; k" := (bind c (fun _ => k))
  (at level 61, right associativity) : embed_scope.
Local Open Scope embed_scope.

(** [rand()] *)
Definition call_rand {E : Env} : M E Z :=
  fun w =>
    let (r, g) := rand E (rng w) in
    (Returned r, mkWorld (wm w) g (trace w ++ [RandCall])).

(* ================================================================== *)
(** * Probe generation of the randomized strategy (lines 86-105) *)
(* ================================================================== *)

Definition M_PI : float := 0x1.921fb54442d18p+1%float.

(** [(DefaultScalarType)(r+1.f)/((float)RAND_MAX+2.f)] for [r = rand()]:
    the sum [r+1.f] and the denominator are binary32 values, the quotient
    is a binary64 division. *)
Definition uniform_variate (rand_max r : Z) : DefaultScalarType :=
  (double_of_Z (binary32_round (binary32_round r + 1))
   / double_of_Z (binary32_round (binary32_round rand_max + 2)))%float.

Definition draw_uniform {E : Env} : M E float :=
  r <- call_rand ;; ret (uniform_variate (RAND_MAX E) r).

(** [sqrt(-2.f*log(v1))] *)
Definition box_muller_len (E : Env) (v1 : DefaultScalarType)
  : DefaultScalarType :=
  PrimFloat.sqrt (-2 * log E v1)%float.

Definition box_muller_cos (E : Env) (v1 v2 : DefaultScalarType)
  : DefaultScalarType :=
  (box_muller_len E v1 * cos E (2 * M_PI * v2))%float.

Definition box_muller_sin (E : Env) (v1 v2 : DefaultScalarType)
  : DefaultScalarType :=
  (box_muller_len E v1 * sin E (2 * M_PI * v2))%float.

(** One row of [O] with [c] columns left to fill: the first inner loop
    takes the columns two at a time, the second one the odd column left. *)
Fixpoint probe_row {E : Env} (c : nat) : M E (list float) :=
  match c with
  | O => ret []
  | S O =>
      v1 <- draw_uniform ;;
      v2 <- draw_uniform ;;
      ret [box_muller_cos E v1 v2]
  | S (S c') =>
      v1 <- draw_uniform ;;
      v2 <- draw_uniform ;;
      rest <- probe_row c' ;;
      ret (box_muller_cos E v1 v2 :: box_muller_sin E v1 v2 :: rest)
  end.

(** The rows of [O], first to last. *)
Fixpoint probe_rows {E : Env} (n c : nat) : M E (list (list float)) :=
  match n with
  | O => ret []
  | S n' =>
      r <- probe_row c ;;
      rest <- probe_rows n' c ;;
      ret (r :: rest)
  end.

Definition generate_probe {E : Env} (n c : nat) : M E DenseMatrix :=
  rws <- probe_rows n c ;; ret (from_rows n c rws).

(** [operation(X)] *)
Definition apply_operation {E : Env} (X : DenseMatrix) : M E DenseMatrix :=
  a <- read_wm ;;
  emit OperatorApplied ;;;
  ret (operation E a X).

(* ================================================================== *)
(** * The three strategies and the dispatch *)
(* ================================================================== *)

(** [eigen_embedding_impl<..., ARPACK>::embed] *)
Definition arpack_embed {E : Env} (target_dimension skip : Z)
  : M E EmbeddingResult :=
  if TAPKEE_NO_ARPACK E then ret empty_result
  else
    a <- read_wm ;;
    emit ArpackSolve ;;;
    let arpack := arpack_solver E a (uadd target_dimension skip) in
    embedding_feature_matrix <-
      check (block (fst arpack) 0 skip (Z.of_nat (wm_cols E a))
               target_dimension) ;;
    values <- check (tail (snd arpack) target_dimension) ;;
    ret (embedding_feature_matrix, values).

(** [eigen_embedding_impl<..., EIGEN_DENSE_SELFADJOINT_SOLVER>::embed] *)
Definition dense_embed {E : Env} (target_dimension skip : Z)
  : M E EmbeddingResult :=
  a <- read_wm ;;
  let dense_wm := to_dense E a in
  emit DenseEigenSolve ;;;
  let solver := self_adjoint_eigen E dense_wm in
  embedding_feature_matrix <-
    check (block (fst solver) 0 skip (Z.of_nat (wm_cols E a))
             target_dimension) ;;
  values <- check (tail (snd solver) target_dimension) ;;
  ret (embedding_feature_matrix, values).

(** Lines 125-130: Rayleigh-Ritz refinement, lift and slice. *)
Definition rayleigh_ritz {E : Env} (target_dimension skip : Z)
    (Y : DenseMatrix) : M E EmbeddingResult :=
  a <- read_wm ;;
  B1 <- apply_operation Y ;;
  emit QrSolve ;;;
  let B := householder_qr_solve E Y B1 in
  emit DenseEigenSolve ;;;
  let eigenOfB := self_adjoint_eigen E B in
  lifted <- check (mat_mul Y (fst eigenOfB)) ;;
  embedding <-
    check (block lifted 0 skip (Z.of_nat (wm_cols E a)) target_dimension) ;;
  ret (embedding, snd eigenOfB).

(** [eigen_embedding_impl<..., RANDOMIZED>::embed] *)
Definition randomized_embed {E : Env} (target_dimension skip : Z)
  : M E EmbeddingResult :=
  a <- read_wm ;;
  O <- generate_probe (wm_rows E a) (Z.to_nat (uadd target_dimension skip)) ;;
  Y0 <- apply_operation O ;;
  rayleigh_ritz target_dimension skip (orthonormalize Y0).

(** [eigen_embedding]: the [switch] over the method tag. *)
Definition eigen_embedding {E : Env} (method : Z) (target_dimension skip : Z)
  : M E EmbeddingResult :=
  if method =? ARPACK E then arpack_embed target_dimension skip
  else if method =? RANDOMIZED E then randomized_embed target_dimension skip
  else if method =? EIGEN_DENSE_SELFADJOINT_SOLVER E
       then dense_embed target_dimension skip
  else ret empty_result.

(* ================================================================== *)
(** * A test bench *)
(* ================================================================== *)

(** Stand-ins for the collaborators, used to run the code on concrete
    inputs.  The weight matrix is dense and the operation is the product
    with it.  The two solvers answer with the unit vectors and the diagonal,
    which is the ascending eigendecomposition of a diagonal matrix whose
    diagonal ascends; the QR solve answers with [Y^T * B1], the
    least-squares solution for orthonormal columns.  The generator repeats
    four values; libm is a table of its values at the arguments these
    draws lead to. *)
Module Bench.

Definition unit_vector (n j : nat) : DenseVector :=
  map (fun i => if Nat.eqb i j then 1%float else 0%float) (seq 0 n).

Definition identity (n : nat) : DenseMatrix :=
  mkDense n (map (unit_vector n) (seq 0 n)).

Definition diagonal (A : DenseMatrix) : DenseVector :=
  map (fun j => nth j (col A j) 0%float) (seq 0 (cols A)).

Definition diag (d : DenseVector) : DenseMatrix :=
  mkDense (length d)
    (map (fun j =>
            map (fun i => if Nat.eqb i j then nth j d 0%float else 0%float)
              (seq 0 (length d)))
       (seq 0 (length d))).

Definition product (A X : DenseMatrix) : DenseMatrix :=
  match mat_mul A X with
  | Returned P => P
  | AssertFailed => empty_matrix
  end.

Definition transposed_product (Y B1 : DenseMatrix) : DenseMatrix :=
  mkDense (cols Y)
    (map (fun b => map (fun y => dot y b) (columns Y)) (columns B1)).

Definition unit_eigen (A : DenseMatrix) : DenseMatrix * DenseVector :=
  (identity (rows A), diagonal A).

(** The [nev] largest eigenpairs of an ascending diagonal matrix. *)
Definition top_eigen (A : DenseMatrix) (nev : Z) : DenseMatrix * DenseVector :=
  (mkDense (rows A)
     (skipn (cols A - Z.to_nat nev) (columns (identity (rows A)))),
   skipn (cols A - Z.to_nat nev) (diagonal A)).

Definition draws : list Z := [2 ^ 30 - 1; 2 ^ 30 - 1; 2 ^ 30 - 1; 2 ^ 29 - 1].

Definition cycle (s : Z) : Z * Z := (nth (Z.to_nat (s mod 4)) draws 0, s + 1).

Definition log_table (x : float) : float :=
  if (x =? 0.5)%float then (-0x1.62e42fefa39efp-1)%float else nan.

Definition cos_table (x : float) : float :=
  if (x =? M_PI)%float then (-1)%float
  else if (x =? M_PI / 2)%float then 0x1.1a62633145c07p-54%float
  else nan.

Definition sin_table (x : float) : float :=
  if (x =? M_PI)%float then 0x1.1a62633145c07p-53%float
  else if (x =? M_PI / 2)%float then 1%float
  else nan.

Definition env (no_arpack : bool) : Env :=
  {| MatrixType := DenseMatrix;
     wm_rows := rows;
     wm_cols := cols;
     to_dense := fun A => A;
     operation := product;
     arpack_solver := top_eigen;
     self_adjoint_eigen := unit_eigen;
     householder_qr_solve := transposed_product;
     RandState := Z;
     rand := cycle;
     RAND_MAX := 2 ^ 31 - 1;
     log := log_table;
     cos := cos_table;
     sin := sin_table;
     TAPKEE_NO_ARPACK := no_arpack;
     ARPACK := 0;
     RANDOMIZED := 1;
     EIGEN_DENSE_SELFADJOINT_SOLVER := 2 |}.

(** A world whose weight matrix is [diag d], with a fresh generator. *)
Definition world (no_arpack : bool) (d : DenseVector) : World (env no_arpack) :=
  @mkWorld (env no_arpack) (diag d) 0 [].

End Bench.

(* ================================================================== *)
(** * The strategies on a memory of objects *)
(* ================================================================== *)

(** The strategies once more, with their matrices as objects of a memory.
    The caller's weight matrix is one of the objects and is reached through
    the reference [wm], here its location.  Every matrix a strategy declares
    ([O], [Y], [B1], [B], [embedding], [dense_wm],
    [embedding_feature_matrix]) is a new object, and the loops that work in
    place write their object.  What is computed is computed by the
    definitions above.  The collaborators have the whole memory before them:
    what each of them does to it is a field of [Effects]. *)

Declare Scope memory_scope.
Delimit Scope memory_scope with memory.

Section Memory.

Context {E : Env}.

Inductive Object : Type :=
| Weights (a : MatrixType E)
| Dense (A : DenseMatrix).

(** Locations are positions in the list of the objects allocated so far. *)
Definition Heap : Type := list Object.

Record Memory : Type := mkMemory {
  heap : Heap;
  generator : RandState E
}.

Record Effects : Type := mkEffects {
  (** [MatrixTypeOperation(wm)(X)], with [wm] and [X] at these locations *)
  operation_effect : nat -> nat -> Heap -> Heap;
  (** the ARPACK solver constructed on [wm] *)
  arpack_effect : nat -> Heap -> Heap;
  (** the dense solver constructed on the matrix at this location *)
  eigen_effect : nat -> Heap -> Heap;
  (** [Y.householderQr().solve(B1)], with [Y] and [B1] at these locations *)
  qr_effect : nat -> nat -> Heap -> Heap
}.

Definition Run (A : Type) : Type := Memory -> Outcome A * Memory.

Definition run_ret {A : Type} (a : A) : Run A := fun m => (Returned a, m).

Definition run_bind {A B : Type} (c : Run A) (k : A -> Run B) : Run B :=
  fun m =>
    match c m with
    | (Returned a, m') => k a m'
    | (AssertFailed, m') => (AssertFailed, m')
    end.

Definition run_check {A : Type} (o : Outcome A) : Run A := fun m => (o, m).

(** A declaration: the new object gets the next location. *)
Definition alloc (o : Object) : Run nat :=
  fun m => (Returned (length (heap m)), mkMemory (heap m ++ [o]) (generator m)).

(** Reading through a reference to a matrix of the caller's type; a
    location that holds no such matrix stops the run. *)
Definition load_weights (l : nat) : Run (MatrixType E) :=
  fun m =>
    match nth_error (heap m) l with
    | Some (Weights a) => (Returned a, m)
    | _ => (AssertFailed, m)
    end.

Definition load_dense (l : nat) : Run DenseMatrix :=
  fun m =>
    match nth_error (heap m) l with
    | Some (Dense A) => (Returned A, m)
    | _ => (AssertFailed, m)
    end.

(** Assignment to the object at [l]. *)
Definition store (l : nat) (o : Object) : Run unit :=
  fun m => (Returned tt, mkMemory (replace_nth l o (heap m)) (generator m)).

(** A call of a collaborator, as far as the memory goes. *)
Definition effect (f : Heap -> Heap) : Run unit :=
  fun m => (Returned tt, mkMemory (f (heap m)) (generator m)).

Notation "x <- c ;; k" := (run_bind c (fun x => k))
  (at level 61, c at next level, right associativity) : memory_scope.
Notation "c ;;; k" := (run_bind c (fun _ => k))
  (at level 61, right associativity) : memory_scope.
Local Open Scope memory_scope.

(** An in-place update of the dense matrix at [l]. *)
Definition modify (l : nat) (f : DenseMatrix -> DenseMatrix) : Run unit :=
  A <- load_dense l ;; store l (Dense (f A)).

(** [DenseMatrix O(n, c)]: the coefficients are not initialised; all of
    them are written before any is read. *)
Definition uninitialized (n c : nat) : DenseMatrix :=
  mkDense n (repeat (repeat 0%float n) c).

(** Lines 87-105: the loops that fill [O], at [l], drawing from the
    process-wide generator. *)
Definition fill_probe (a : MatrixType E) (l : nat) (n c : nat) : Run unit :=
  fun m =>
    match generate_probe n c (@mkWorld E a (generator m) []) with
    | (Returned P, w') =>
        (Returned tt, mkMemory (replace_nth l (Dense P) (heap m)) (rng w'))
    | (AssertFailed, w') => (AssertFailed, mkMemory (heap m) (rng w'))
    end.

(** Lines 109-123: every turn of the loop writes [Y], at [l]. *)
Definition orthonormalize_in_place (l : nat) : Run unit :=
  Y <- load_dense l ;;
  fold_left
    (fun done i => done ;;; modify l (fun Y' => orthonormalize_column Y' i))
    (seq 0 (cols Y)) (run_ret tt).

(** [eigen_embedding_impl<..., ARPACK>::embed] *)
Definition arpack_embed_mem (F : Effects) (wm_loc : nat)
    (target_dimension skip : Z) : Run EmbeddingResult :=
  if TAPKEE_NO_ARPACK E then run_ret empty_result
  else
    a <- load_weights wm_loc ;;
    effect (arpack_effect F wm_loc) ;;;
    let arpack := arpack_solver E a (uadd target_dimension skip) in
    X <- run_check (block (fst arpack) 0 skip (Z.of_nat (wm_cols E a))
                      target_dimension) ;;
    embedding_feature_matrix <- alloc (Dense X) ;;
    values <- run_check (tail (snd arpack) target_dimension) ;;
    run_ret (X, values).

(** [eigen_embedding_impl<..., EIGEN_DENSE_SELFADJOINT_SOLVER>::embed] *)
Definition dense_embed_mem (F : Effects) (wm_loc : nat)
    (target_dimension skip : Z) : Run EmbeddingResult :=
  a <- load_weights wm_loc ;;
  dense_wm <- alloc (Dense (to_dense E a)) ;;
  A <- load_dense dense_wm ;;
  effect (eigen_effect F dense_wm) ;;;
  let solver := self_adjoint_eigen E A in
  X <- run_check (block (fst solver) 0 skip (Z.of_nat (wm_cols E a))
                    target_dimension) ;;
  embedding_feature_matrix <- alloc (Dense X) ;;
  values <- run_check (tail (snd solver) target_dimension) ;;
  run_ret (X, values).

(** [eigen_embedding_impl<..., RANDOMIZED>::embed] *)
Definition randomized_embed_mem (F : Effects) (wm_loc : nat)
    (target_dimension skip : Z) : Run EmbeddingResult :=
  a <- load_weights wm_loc ;;
  O <- alloc (Dense (uninitialized (wm_rows E a)
                       (Z.to_nat (uadd target_dimension skip)))) ;;
  fill_probe a O (wm_rows E a) (Z.to_nat (uadd target_dimension skip)) ;;;
  probe <- load_dense O ;;
  effect (operation_effect F wm_loc O) ;;;
  Y <- alloc (Dense (operation E a probe)) ;;
  orthonormalize_in_place Y ;;;
  basis <- load_dense Y ;;
  effect (operation_effect F wm_loc Y) ;;;
  B1 <- alloc (Dense (operation E a basis)) ;;
  rhs <- load_dense B1 ;;
  effect (qr_effect F Y B1) ;;;
  B <- alloc (Dense (householder_qr_solve E basis rhs)) ;;
  small <- load_dense B ;;
  effect (eigen_effect F B) ;;;
  let eigenOfB := self_adjoint_eigen E small in
  basis' <- load_dense Y ;;
  lifted <- run_check (mat_mul basis' (fst eigenOfB)) ;;
  X <- run_check (block lifted 0 skip (Z.of_nat (wm_cols E a))
                    target_dimension) ;;
  embedding <- alloc (Dense X) ;;
  run_ret (X, snd eigenOfB).

(** [eigen_embedding]: the [switch] over the method tag. *)
Definition eigen_embedding_mem (F : Effects) (method : Z) (wm_loc : nat)
    (target_dimension skip : Z) : Run EmbeddingResult :=
  if method =? ARPACK E
  then arpack_embed_mem F wm_loc target_dimension skip
  else if method =? RANDOMIZED E
       then randomized_embed_mem F wm_loc target_dimension skip
  else if method =? EIGEN_DENSE_SELFADJOINT_SOLVER E
       then dense_embed_mem F wm_loc target_dimension skip
  else run_ret empty_result.

(** [f] leaves alone every object that exists when it is called, except
    those at the locations [written]. *)
Definition keeps (f : Heap -> Heap) (written : list nat) : Prop :=
  forall (h : Heap) (l : nat),
    (l < length h)%nat -> ~ In l written ->
    nth_error (f h) l = nth_error h l.

(** Of the objects that exist when it is called, a collaborator writes at
    most the dense matrices it is handed.  The operation and the ARPACK
    solver are not handed the weight matrix to write: they take it by
    reference to [const]. *)
Definition writes_only_arguments (F : Effects) : Prop :=
  (forall wm_loc x, keeps (operation_effect F wm_loc x) [x])
  /\ (forall wm_loc, keeps (arpack_effect F wm_loc) [])
  /\ (forall l, keeps (eigen_effect F l) [l])
  /\ (forall y b1, keeps (qr_effect F y b1) [y; b1]).

(** A collaborator that writes nothing of what exists. *)
Definition writes_nothing (F : Effects) : Prop :=
  (forall wm_loc x, keeps (operation_effect F wm_loc x) [])
  /\ (forall wm_loc, keeps (arpack_effect F wm_loc) [])
  /\ (forall l, keeps (eigen_effect F l) [])
  /\ (forall y b1, keeps (qr_effect F y b1) []).

(** The run [c] does not write the object at [l], which exists, and what it
    returns satisfies [Q]. *)
Definition leaves (l : nat) {A : Type} (c : Run A) (Q : A -> Prop) : Prop :=
  forall m : Memory,
    (l < length (heap m))%nat ->
    nth_error (heap (snd (c m))) l = nth_error (heap m) l
    /\ (l < length (heap (snd (c m))))%nat
    /\ forall a, fst (c m) = Returned a -> Q a.

End Memory.

Arguments Object E : clear implicits.
Arguments Heap E : clear implicits.
Arguments Memory E : clear implicits.
Arguments Effects E : clear implicits.
Arguments Run E A : clear implicits.

Notation "x <- c ;; k" := (run_bind c (fun x => k))
  (at level 61, c at next level, right associativity) : memory_scope.
Notation "c ;;; k" := (run_bind c (fun _ => k))
  (at level 61, right associativity) : memory_scope.

(** Collaborators for the bench that overwrite what they are handed: the
    dense solver and the QR solve leave an empty matrix in the place of
    their arguments, the operation in the place of the matrix it is applied
    to. *)
Definition overwriting_effects (E : Env) : Effects E :=
  {| operation_effect := fun _ x h => replace_nth x (Dense empty_matrix) h;
     arpack_effect := fun _ h => h;
     eigen_effect := fun l h => replace_nth l (Dense empty_matrix) h;
     qr_effect := fun y b1 h =>
       replace_nth b1 (Dense empty_matrix)
         (replace_nth y (Dense empty_matrix) h) |}.

(** Collaborators that write nothing. *)
Definition no_effects (E : Env) : Effects E :=
  {| operation_effect := fun _ _ h => h;
     arpack_effect := fun _ h => h;
     eigen_effect := fun _ h => h;
     qr_effect := fun _ _ h => h |}.

(* ================================================================== *)
(** * Notions used in the statements *)
(* ================================================================== *)

(** The world after one more event. *)
Definition logged {E : Env} (w : World E) (e : Event) : World E :=
  mkWorld (wm w) (rng w) (trace w ++ [e]).

(** Columns [[s, s+d)] of a matrix, cut to their first [n] coefficients. *)
Definition column_slice (V : DenseMatrix) (n s d : nat) : list DenseVector :=
  map (firstn n) (firstn d (skipn s (columns V))).

(** The calls of [rand] that fill one row of [c] columns: two for every
    pair of columns and two for an odd column left. *)
Fixpoint row_draws (c : nat) : nat :=
  match c with
  | O => O
  | S O => 2
  | S (S c') => 2 + row_draws c'
  end.

(** What the randomized strategy does after the probe is drawn. *)
Definition randomized_steps : list Event :=
  [OperatorApplied; OperatorApplied; QrSolve; DenseEigenSolve].

(** How lines 125-130 end for the weight matrix [a] and the basis [Y]. *)
Definition rayleigh_ritz_outcome (E : Env) (a : MatrixType E) (d s : Z)
    (Y : DenseMatrix) : Outcome EmbeddingResult :=
  let eigenOfB :=
    self_adjoint_eigen E (householder_qr_solve E Y (operation E a Y)) in
  match mat_mul Y (fst eigenOfB) with
  | Returned lifted =>
      match block lifted 0 s (Z.of_nat (wm_cols E a)) d with
      | Returned X => Returned (X, snd eigenOfB)
      | AssertFailed => AssertFailed
      end
  | AssertFailed => AssertFailed
  end.

(** [u] lies strictly between 0 and 1. *)
Definition in_open_unit (u : float) : bool := ((0 <? u) && (u <? 1))%float.

(** [p] holds at [r], [r + 1], ..., [r + n - 1]. *)
Fixpoint holds_from (p : Z -> bool) (r : Z) (n : nat) : bool :=
  match n with
  | O => true
  | S k => p r && holds_from p (r + 1) k
  end.

(** A coefficient that is [+0] or [-0]. *)
Definition zero_coeff (x : float) : bool :=
  match Prim2SF x with
  | S754_zero _ => true
  | _ => false
  end.

(** A coefficient that is neither infinite nor NaN. *)
Definition finite_coeff (x : float) : bool :=
  match Prim2SF x with
  | S754_zero _ | S754_finite _ _ _ => true
  | _ => false
  end.

Definition all_nan (u : DenseVector) : Prop := Forall (fun x => x = nan) u.

Definition all_zero (u : DenseVector) : Prop :=
  Forall (fun x => zero_coeff x = true) u.

Definition all_finite (u : DenseVector) : Prop :=
  Forall (fun x => finite_coeff x = true) u.

(** Every column has as many coefficients as the matrix has rows. *)
Definition well_formed (Y : DenseMatrix) : Prop :=
  Forall (fun c => length c = rows Y) (columns Y).

(** The state of the generator after [k] calls of [rand]. *)
Fixpoint advance (E : Env) (k : nat) (g : RandState E) : RandState E :=
  match k with
  | O => g
  | S k' => advance E k' (snd (rand E g))
  end.

(** The binary32 value of [r+1.f] for [r = rand()]. *)
Definition variate_numerator (r : Z) : Z :=
  binary32_round (binary32_round r + 1).

(** The binary32 value of [(float)RAND_MAX+2.f]. *)
Definition variate_denominator (rand_max : Z) : Z :=
  binary32_round (binary32_round rand_max + 2).


(** The variate made of the call number [t] (from 0) of [rand], counted
    from the generator state [g]. *)
Definition nth_variate (E : Env) (g : RandState E) (t : nat)
  : DefaultScalarType :=
  uniform_variate (RAND_MAX E) (fst (rand E (advance E t g))).

(** The Box-Muller sample of column [j] in a row whose draws start at the
    generator state [g]: the pair of variates number [2 * floor(j/2)] and
    the next one, its cosine sample for an even [j], its sine sample for an
    odd [j]. *)
Definition row_sample (E : Env) (g : RandState E) (j : nat)
  : DefaultScalarType :=
  let b := (2 * Nat.div2 j)%nat in
  if Nat.even j
  then box_muller_cos E (nth_variate E g b) (nth_variate E g (S b))
  else box_muller_sin E (nth_variate E g b) (nth_variate E g (S b)).

(* ================================================================== *)
(** * Lists: slices *)
(* ================================================================== *)

Lemma nth_skipn_shift {A : Type} (l : list A) (s k : nat) (d : A) :
  nth k (skipn s l) d = nth (s + k) l d.
Proof.
  revert l; induction s as [|s IH]; intros l; simpl.
  - reflexivity.
  - destruct l as [|x l]; simpl.
    + destruct k; reflexivity.
    + apply IH.
Qed.

Lemma nth_firstn_below {A : Type} (l : list A) (n k : nat) (d : A) :
  (k < n)%nat -> nth k (firstn n l) d = nth k l d.
Proof.
  revert l k; induction n as [|n IH]; intros l k Hk.
  - lia.
  - destruct l as [|x l]; simpl.
    + destruct k; reflexivity.
    + destruct k as [|k]; simpl; [reflexivity | apply IH; lia].
Qed.

Lemma length_slice {A : Type} (l : list A) (s n : nat) :
  (s + n <= length l)%nat -> length (firstn n (skipn s l)) = n.
Proof.
  intros H. rewrite length_firstn, length_skipn. lia.
Qed.

Lemma well_formed_length (Y : DenseMatrix) (k : nat) :
  well_formed Y -> (k < cols Y)%nat -> length (col Y k) = rows Y.
Proof.
  intros Hwf Hk. unfold well_formed in Hwf.
  rewrite Forall_forall in Hwf. apply Hwf. now apply nth_In.
Qed.

(* ================================================================== *)
(** * The ARPACK strategy *)
(* ================================================================== *)

Section Arpack.

Context {E : Env}.

(** The strategy when ARPACK is compiled in, with the monad unfolded. *)
Lemma arpack_embed_run (d s : Z) (w : World E) :
  TAPKEE_NO_ARPACK E = false ->
  arpack_embed d s w =
  let arpack := arpack_solver E (wm w) (uadd d s) in
  match block (fst arpack) 0 s (Z.of_nat (wm_cols E (wm w))) d with
  | Returned X =>
      match tail (snd arpack) d with
      | Returned v => (Returned (X, v), logged w ArpackSolve)
      | AssertFailed => (AssertFailed, logged w ArpackSolve)
      end
  | AssertFailed => (AssertFailed, logged w ArpackSolve)
  end.
Proof.
  intros Hflag. unfold arpack_embed. rewrite Hflag.
  unfold bind, read_wm, emit, check, ret, logged; simpl.
  destruct (block _ _ _ _ _); [|reflexivity].
  destruct (tail _ _); reflexivity.
Qed.

Lemma block_in_range (V : DenseMatrix) (n : nat) (s d : Z) :
  0 <= s -> 0 <= d ->
  (n <= rows V)%nat ->
  s + d <= Z.of_nat (cols V) ->
  block V 0 s (Z.of_nat n) d =
  Returned (mkDense n (column_slice V n (Z.to_nat s) (Z.to_nat d))).
Proof.
  intros Hs Hd Hn Hc. unfold block, column_slice.
  replace (0 <=? 0) with true by reflexivity.
  replace (0 <=? Z.of_nat n) with true by (symmetry; apply Z.leb_le; lia).
  replace (0 + Z.of_nat n <=? Z.of_nat (rows V)) with true
    by (symmetry; apply Z.leb_le; lia).
  replace (0 <=? s) with true by (symmetry; apply Z.leb_le; lia).
  replace (0 <=? d) with true by (symmetry; apply Z.leb_le; lia).
  replace (s + d <=? Z.of_nat (cols V)) with true
    by (symmetry; apply Z.leb_le; lia).
  simpl. rewrite Nat2Z.id. reflexivity.
Qed.

Lemma tail_in_range (v : DenseVector) (s d : Z) :
  0 <= s -> 0 <= d ->
  Z.of_nat (length v) = d + s ->
  tail v d = Returned (skipn (Z.to_nat s) v).
Proof.
  intros Hs Hd Hl. unfold tail.
  replace (0 <=? d) with true by (symmetry; apply Z.leb_le; lia).
  replace (d <=? Z.of_nat (length v)) with true
    by (symmetry; apply Z.leb_le; lia).
  simpl. f_equal. f_equal. lia.
Qed.

Lemma column_slice_nth (V : DenseMatrix) (n s d k : nat) :
  (k < d)%nat -> (s + d <= cols V)%nat ->
  nth k (column_slice V n s d) [] = firstn n (col V (s + k)).
Proof.
  intros Hk Hc. unfold column_slice, col.
  rewrite (nth_indep (map (firstn n) (firstn d (skipn s (columns V))))
             (@nil float) (firstn n (@nil float)))
    by (rewrite length_map, length_slice; assumption).
  rewrite map_nth, nth_firstn_below by assumption.
  now rewrite nth_skipn_shift.
Qed.

End Arpack.

(** C8. With ARPACK compiled in, let the solver answer the request for
    [target_dimension + skip] eigenpairs with an eigenvector matrix [V] of
    that many columns and an eigenvalue vector [lambda] of that many
    entries.  Then the adapter returns: as eigenvectors columns
    [[skip, skip + target_dimension)] of [V] (their first [wm.cols()]
    coefficients, which is all of them when [V] has [wm.cols()] rows), and
    as eigenvalues the last [target_dimension] entries of [lambda], which
    are [lambda] without its first [skip] entries.  There are
    [target_dimension] of each, and the eigenvalue returned at index [k] is
    entry [skip + k] of [lambda], as the eigenvector returned at index [k] is
    column [skip + k] of [V]. *)
Theorem arpack_embed_slices (E : Env) (d s : Z) (w : World E)
    (V : DenseMatrix) (lambda : DenseVector) :
  TAPKEE_NO_ARPACK E = false ->
  is_uint d -> is_uint s ->
  arpack_solver E (wm w) (uadd d s) = (V, lambda) ->
  Z.of_nat (cols V) = d + s ->
  Z.of_nat (length lambda) = d + s ->
  (wm_cols E (wm w) <= rows V)%nat ->
  exists (X : DenseMatrix) (values : DenseVector),
    arpack_embed d s w = (Returned (X, values), logged w ArpackSolve)
    /\ columns X =
       column_slice V (wm_cols E (wm w)) (Z.to_nat s) (Z.to_nat d)
    /\ values = skipn (Z.to_nat s) lambda
    /\ cols X = Z.to_nat d
    /\ length values = Z.to_nat d
    /\ forall k : nat, (k < Z.to_nat d)%nat ->
         nth k values 0%float = nth (Z.to_nat s + k) lambda 0%float
         /\ col X k = firstn (wm_cols E (wm w)) (col V (Z.to_nat s + k))
         /\ (well_formed V -> rows V = wm_cols E (wm w) ->
             col X k = col V (Z.to_nat s + k)).
Proof.
  intros Hflag [Hd _] [Hs _] Hsolve HV Hl Hrows.
  rewrite (arpack_embed_run d s w Hflag), Hsolve; simpl.
  rewrite block_in_range by lia.
  rewrite (tail_in_range lambda s d) by lia.
  eexists; eexists; split; [reflexivity|].
  assert (Hc : (Z.to_nat s + Z.to_nat d <= cols V)%nat) by lia.
  repeat split.
  - unfold cols; simpl. unfold column_slice.
    rewrite length_map. apply length_slice. exact Hc.
  - rewrite length_skipn. lia.
  - apply nth_skipn_shift.
  - unfold col at 1; simpl. now apply column_slice_nth.
  - intros Hwf Hsq. unfold col at 1; simpl.
    rewrite column_slice_nth by assumption.
    rewrite <- Hsq, <- (well_formed_length V (Z.to_nat s + k)) by (auto; lia).
    apply firstn_all.
Qed.

(** The ARPACK strategy on [diag(1,2,3,4)] with [target_dimension = 2] and
    [skip = 1]: of the three eigenpairs the solver answers, the last two are
    returned. *)
Lemma arpack_embed_slices_witness :
  let w := Bench.world false [1; 2; 3; 4]%float in
  let solved := Bench.top_eigen (wm w) 3 in
  exists (X : DenseMatrix) (values : DenseVector),
    arpack_embed 2 1 w = (Returned (X, values), logged w ArpackSolve)
    /\ columns X = column_slice (fst solved) 4 1 2
    /\ values = skipn 1 (snd solved)
    /\ cols X = 2%nat
    /\ length values = 2%nat
    /\ forall k : nat, (k < 2)%nat ->
         nth k values 0%float = nth (1 + k) (snd solved) 0%float
         /\ col X k = firstn 4 (col (fst solved) (1 + k))
         /\ (well_formed (fst solved) -> rows (fst solved) = 4%nat ->
             col X k = col (fst solved) (1 + k)).
Proof.
  intros w solved.
  apply (arpack_embed_slices (Bench.env false) 2 1 w (fst solved) (snd solved));
    solve [ reflexivity | lia | vm_compute; lia
          | unfold is_uint, UINT_MODULUS; lia ].
Defined.

(* ================================================================== *)
(** * The randomized strategy, step by step *)
(* ================================================================== *)

Section Randomized.

Context {E : Env}.

Lemma draw_uniform_run (w : World E) :
  exists (v : float) (g : RandState E),
    draw_uniform w = (Returned v, mkWorld (wm w) g (trace w ++ [RandCall])).
Proof.
  unfold draw_uniform, bind, call_rand, ret.
  destruct (rand E (rng w)) as [r g]. eexists; eexists; reflexivity.
Qed.

Lemma probe_row_run (c : nat) (w : World E) :
  exists (r : list float) (g : RandState E),
    probe_row c w =
    (Returned r, mkWorld (wm w) g (trace w ++ repeat RandCall (row_draws c))).
Proof.
  revert w. induction c as [c IH] using (well_founded_induction Wf_nat.lt_wf).
  intros w. destruct c as [|[|c]]; simpl.
  - exists [], (rng w). unfold ret. rewrite app_nil_r. destruct w; reflexivity.
  - unfold bind at 1.
    destruct (draw_uniform_run w) as (v1 & g1 & ->).
    unfold bind at 1.
    destruct (draw_uniform_run (mkWorld (wm w) g1 (trace w ++ [RandCall])))
      as (v2 & g2 & ->).
    simpl. unfold ret. eexists; eexists. rewrite <- app_assoc. reflexivity.
  - unfold bind at 1.
    destruct (draw_uniform_run w) as (v1 & g1 & ->).
    unfold bind at 1.
    destruct (draw_uniform_run (mkWorld (wm w) g1 (trace w ++ [RandCall])))
      as (v2 & g2 & ->).
    simpl. unfold bind at 1.
    destruct (IH c ltac:(lia)
                (mkWorld (wm w) g2 ((trace w ++ [RandCall]) ++ [RandCall])))
      as (r & g & ->).
    simpl. unfold ret. eexists; eexists.
    rewrite <- !app_assoc. reflexivity.
Qed.

Lemma probe_rows_run (n c : nat) (w : World E) :
  exists (rws : list (list float)) (g : RandState E),
    probe_rows n c w =
    (Returned rws,
     mkWorld (wm w) g (trace w ++ repeat RandCall (n * row_draws c))).
Proof.
  revert w. induction n as [|n IH]; intros w; simpl.
  - exists [], (rng w). unfold ret. rewrite app_nil_r. destruct w; reflexivity.
  - unfold bind at 1.
    destruct (probe_row_run c w) as (r & g1 & ->).
    unfold bind at 1.
    destruct (IH (mkWorld (wm w) g1 (trace w ++ repeat RandCall (row_draws c))))
      as (rws & g & ->).
    simpl. unfold ret. eexists; eexists.
    rewrite <- app_assoc, <- repeat_app. reflexivity.
Qed.

Lemma rayleigh_ritz_run (d s : Z) (Y : DenseMatrix) (w : World E) :
  rayleigh_ritz d s Y w =
  (rayleigh_ritz_outcome E (wm w) d s Y,
   mkWorld (wm w) (rng w)
     (trace w ++ [OperatorApplied; QrSolve; DenseEigenSolve])).
Proof.
  unfold rayleigh_ritz, rayleigh_ritz_outcome, apply_operation.
  unfold bind, read_wm, emit, check, ret; simpl.
  rewrite <- !app_assoc; simpl.
  destruct (mat_mul _ _); [|reflexivity].
  destruct (block _ _ _ _ _); reflexivity.
Qed.

(** The whole strategy: the probe is drawn, the operation applied to it,
    the basis orthonormalised, and lines 125-130 decide how the call ends. *)
Lemma randomized_embed_run (d s : Z) (w : World E) :
  exists (O : DenseMatrix) (g : RandState E),
    rows O = wm_rows E (wm w)
    /\ cols O = Z.to_nat (uadd d s)
    /\ randomized_embed d s w =
       (rayleigh_ritz_outcome E (wm w) d s
          (orthonormalize (operation E (wm w) O)),
        mkWorld (wm w) g
          (trace w
           ++ repeat RandCall
                (wm_rows E (wm w) * row_draws (Z.to_nat (uadd d s)))
           ++ randomized_steps)).
Proof.
  unfold randomized_embed, generate_probe.
  destruct (probe_rows_run (wm_rows E (wm w)) (Z.to_nat (uadd d s)) w)
    as (rws & g & Hrun).
  exists (from_rows (wm_rows E (wm w)) (Z.to_nat (uadd d s)) rws), g.
  split; [reflexivity|].
  split; [unfold cols, from_rows; simpl; now rewrite length_map, length_seq|].
  unfold bind at 1. unfold read_wm at 1.
  unfold bind at 1. unfold bind at 1. rewrite Hrun.
  unfold ret at 1. unfold bind at 1.
  unfold apply_operation, bind, read_wm, emit, ret; simpl.
  rewrite rayleigh_ritz_run; simpl.
  unfold randomized_steps. rewrite <- !app_assoc. reflexivity.
Qed.

End Randomized.

(* ================================================================== *)
(** * The dispatch and the calls that compute nothing *)
(* ================================================================== *)

Section Dispatch.

Context {E : Env}.

Lemma dispatch_arpack (d s : Z) :
  eigen_embedding (ARPACK E) d s = arpack_embed (E := E) d s.
Proof. unfold eigen_embedding. now rewrite Z.eqb_refl. Qed.

Lemma dispatch_randomized (d s : Z) :
  RANDOMIZED E <> ARPACK E ->
  eigen_embedding (RANDOMIZED E) d s = randomized_embed (E := E) d s.
Proof.
  intros H. unfold eigen_embedding.
  apply Z.eqb_neq in H. now rewrite H, Z.eqb_refl.
Qed.

Lemma dispatch_dense (d s : Z) :
  EIGEN_DENSE_SELFADJOINT_SOLVER E <> ARPACK E ->
  EIGEN_DENSE_SELFADJOINT_SOLVER E <> RANDOMIZED E ->
  eigen_embedding (EIGEN_DENSE_SELFADJOINT_SOLVER E) d s =
  dense_embed (E := E) d s.
Proof.
  intros H1 H2. unfold eigen_embedding.
  apply Z.eqb_neq in H1, H2. now rewrite H1, H2, Z.eqb_refl.
Qed.

Lemma dispatch_other (method d s : Z) :
  method <> ARPACK E ->
  method <> RANDOMIZED E ->
  method <> EIGEN_DENSE_SELFADJOINT_SOLVER E ->
  eigen_embedding method d s = ret (E := E) empty_result.
Proof.
  intros H1 H2 H3. unfold eigen_embedding.
  apply Z.eqb_neq in H1, H2, H3. now rewrite H1, H2, H3.
Qed.

Lemma dense_embed_run (d s : Z) (w : World E) :
  dense_embed d s w =
  let solver := self_adjoint_eigen E (to_dense E (wm w)) in
  match block (fst solver) 0 s (Z.of_nat (wm_cols E (wm w))) d with
  | Returned X =>
      match tail (snd solver) d with
      | Returned v => (Returned (X, v), logged w DenseEigenSolve)
      | AssertFailed => (AssertFailed, logged w DenseEigenSolve)
      end
  | AssertFailed => (AssertFailed, logged w DenseEigenSolve)
  end.
Proof.
  unfold dense_embed, bind, read_wm, emit, check, ret, logged; simpl.
  destruct (block _ _ _ _ _); [|reflexivity].
  destruct (tail _ _); reflexivity.
Qed.

End Dispatch.

(** C6 as the code has it. In a build that defines [TAPKEE_NO_ARPACK] the
    ARPACK strategy returns the empty [EmbeddingResult()] (a 0 x 0 matrix
    and no eigenvalue) to its caller, for every weight matrix and every
    [target_dimension] and [skip], directly or through [eigen_embedding]; it
    calls no solver, leaves the world as it was and reports no error. *)
Theorem arpack_unavailable_returns_empty (E : Env) (d s : Z) (w : World E) :
  TAPKEE_NO_ARPACK E = true ->
  arpack_embed d s w = (Returned empty_result, w)
  /\ eigen_embedding (ARPACK E) d s w = (Returned empty_result, w).
Proof.
  intros Hflag. rewrite dispatch_arpack.
  unfold arpack_embed. rewrite Hflag. split; reflexivity.
Qed.

(** The bench built without ARPACK. *)
Lemma arpack_unavailable_returns_empty_witness :
  let w := Bench.world true [1; 2; 3; 4]%float in
  TAPKEE_NO_ARPACK (Bench.env true) = true
  /\ arpack_embed 2 1 w = (Returned empty_result, w)
  /\ eigen_embedding (ARPACK (Bench.env true)) 2 1 w =
     (Returned empty_result, w).
Proof.
  intros w. split; [reflexivity|].
  apply (arpack_unavailable_returns_empty (Bench.env true) 2 1 w).
  reflexivity.
Defined.

(** C6 fails on the code: without ARPACK, asking the ARPACK strategy for two
    eigenpairs of [diag(1,2,3,4)] returns normally, with the empty result
    and no event. *)
Lemma arpack_unavailable_is_silent :
  let w := Bench.world true [1; 2; 3; 4]%float in
  is_returned (fst (eigen_embedding (ARPACK (Bench.env true)) 2 1 w)) = true
  /\ eigen_embedding (ARPACK (Bench.env true)) 2 1 w =
     (Returned empty_result, w)
  /\ trace (snd (eigen_embedding (ARPACK (Bench.env true)) 2 1 w)) = [].
Proof. vm_compute. repeat split. Qed.

(** C7 as the code has it. For a method tag that is none of [ARPACK],
    [RANDOMIZED] and [EIGEN_DENSE_SELFADJOINT_SOLVER], no [case] of the
    [switch] is taken and [eigen_embedding] returns the empty
    [EmbeddingResult()] to its caller; nothing is computed, the world is as
    it was and no error is reported. *)
Theorem unrecognized_method_returns_empty (E : Env) (method d s : Z)
    (w : World E) :
  method <> ARPACK E ->
  method <> RANDOMIZED E ->
  method <> EIGEN_DENSE_SELFADJOINT_SOLVER E ->
  eigen_embedding method d s w = (Returned empty_result, w).
Proof.
  intros H1 H2 H3. now rewrite dispatch_other.
Qed.

(** The tag [7] on the bench, whose enumerators are [0], [1] and [2]. *)
Lemma unrecognized_method_returns_empty_witness :
  let w := Bench.world false [1; 2; 3; 4]%float in
  eigen_embedding 7 2 1 w = (Returned empty_result, w).
Proof.
  intros w.
  apply (unrecognized_method_returns_empty (Bench.env false) 7 2 1 w);
    simpl; lia.
Defined.

(** C7 fails on the code: the tag [7], which is none of the three
    enumerators of the bench ([0], [1], [2]), makes [eigen_embedding] return
    normally with the empty result. *)
Lemma unrecognized_method_is_silent :
  let w := Bench.world false [1; 2; 3; 4]%float in
  is_returned (fst (eigen_embedding 7 2 1 w)) = true
  /\ eigen_embedding 7 2 1 w = (Returned empty_result, w).
Proof. vm_compute. repeat split. Qed.

(* ================================================================== *)
(** * Dimensions are not validated *)
(* ================================================================== *)

Lemma dense_embed_trace (E : Env) (d s : Z) (w : World E) :
  trace (snd (dense_embed d s w)) = trace w ++ [DenseEigenSolve].
Proof.
  rewrite dense_embed_run; simpl.
  destruct (block _ _ _ _ _); [|reflexivity].
  destruct (tail _ _); reflexivity.
Qed.

Lemma arpack_embed_trace (E : Env) (d s : Z) (w : World E) :
  TAPKEE_NO_ARPACK E = false ->
  trace (snd (arpack_embed d s w)) = trace w ++ [ArpackSolve].
Proof.
  intros Hflag. rewrite arpack_embed_run by assumption; simpl.
  destruct (block _ _ _ _ _); [|reflexivity].
  destruct (tail _ _); reflexivity.
Qed.

Lemma randomized_embed_trace (E : Env) (d s : Z) (w : World E) :
  trace (snd (randomized_embed d s w)) =
  trace w
  ++ repeat RandCall (wm_rows E (wm w) * row_draws (Z.to_nat (uadd d s)))
  ++ randomized_steps.
Proof.
  destruct (randomized_embed_run d s w) as (O & g & _ & _ & ->). reflexivity.
Qed.

(** With a solver that answers an [n x n] matrix of eigenvectors, the dense
    strategy asked for more than [n] eigenpairs ends in the range assertion of
    [block], after the decomposition. *)
Lemma dense_embed_out_of_range (E : Env) (d s : Z) (w : World E) :
  cols (fst (self_adjoint_eigen E (to_dense E (wm w)))) = wm_cols E (wm w) ->
  Z.of_nat (wm_cols E (wm w)) < d + s ->
  dense_embed d s w = (AssertFailed, logged w DenseEigenSolve).
Proof.
  intros Hc Hlt. rewrite dense_embed_run; simpl.
  unfold block. rewrite Hc.
  replace (s + d <=? Z.of_nat (wm_cols E (wm w))) with false
    by (symmetry; apply Z.leb_gt; lia).
  rewrite andb_false_r. reflexivity.
Qed.

(** C5 as the code has it. No call is rejected for its dimensions before
    the computation.  [target_dimension] and [skip] are [unsigned int], so
    never negative, and [eigen_embedding] hands them unchecked to the
    strategy the tag selects.  Whatever their values, also with
    [target_dimension + skip > n]: the randomized strategy draws the whole
    probe, applies the operation twice, runs the QR solve and the
    eigendecomposition; the dense strategy runs its eigendecomposition; the
    ARPACK strategy, when compiled in, runs its solver.  Only after that can
    a range assertion of Eigen stop the call, as it does in the dense
    strategy when the solver answers an [n x n] matrix and
    [target_dimension + skip > n]. *)
Theorem dimensions_are_not_validated (E : Env) (d s : Z) (w : World E) :
  RANDOMIZED E <> ARPACK E ->
  EIGEN_DENSE_SELFADJOINT_SOLVER E <> ARPACK E ->
  EIGEN_DENSE_SELFADJOINT_SOLVER E <> RANDOMIZED E ->
  eigen_embedding (ARPACK E) d s w = arpack_embed d s w
  /\ eigen_embedding (RANDOMIZED E) d s w = randomized_embed d s w
  /\ eigen_embedding (EIGEN_DENSE_SELFADJOINT_SOLVER E) d s w =
     dense_embed d s w
  /\ trace (snd (randomized_embed d s w)) =
     trace w
     ++ repeat RandCall (wm_rows E (wm w) * row_draws (Z.to_nat (uadd d s)))
     ++ [OperatorApplied; OperatorApplied; QrSolve; DenseEigenSolve]
  /\ trace (snd (dense_embed d s w)) = trace w ++ [DenseEigenSolve]
  /\ (TAPKEE_NO_ARPACK E = false ->
      trace (snd (arpack_embed d s w)) = trace w ++ [ArpackSolve])
  /\ (cols (fst (self_adjoint_eigen E (to_dense E (wm w)))) =
        wm_cols E (wm w) ->
      Z.of_nat (wm_cols E (wm w)) < d + s ->
      dense_embed d s w = (AssertFailed, logged w DenseEigenSolve)).
Proof.
  intros H1 H2 H3.
  rewrite dispatch_arpack, dispatch_randomized, dispatch_dense by assumption.
  repeat split.
  - apply randomized_embed_trace.
  - apply dense_embed_trace.
  - apply arpack_embed_trace.
  - apply dense_embed_out_of_range.
Qed.

(** Three eigenpairs asked of the 2 x 2 matrix [diag(1,2)]. *)
Lemma dimensions_are_not_validated_witness :
  let E := Bench.env false in
  let w := Bench.world false [1; 2]%float in
  eigen_embedding (ARPACK E) 2 1 w = arpack_embed 2 1 w
  /\ eigen_embedding (RANDOMIZED E) 2 1 w = randomized_embed 2 1 w
  /\ eigen_embedding (EIGEN_DENSE_SELFADJOINT_SOLVER E) 2 1 w =
     dense_embed 2 1 w
  /\ trace (snd (randomized_embed 2 1 w)) =
     trace w
     ++ repeat RandCall (wm_rows E (wm w) * row_draws (Z.to_nat (uadd 2 1)))
     ++ [OperatorApplied; OperatorApplied; QrSolve; DenseEigenSolve]
  /\ trace (snd (dense_embed 2 1 w)) = trace w ++ [DenseEigenSolve]
  /\ (TAPKEE_NO_ARPACK E = false ->
      trace (snd (arpack_embed 2 1 w)) = trace w ++ [ArpackSolve])
  /\ (cols (fst (self_adjoint_eigen E (to_dense E (wm w)))) =
        wm_cols E (wm w) ->
      Z.of_nat (wm_cols E (wm w)) < 2 + 1 ->
      dense_embed 2 1 w = (AssertFailed, logged w DenseEigenSolve)).
Proof.
  intros E w.
  apply (dimensions_are_not_validated (Bench.env false) 2 1 w); simpl; lia.
Defined.

(** C5 fails on the code: on the 2 x 2 matrix [diag(1,2)] the randomized
    strategy asked for [target_dimension = 2] and [skip = 1] (three
    eigenpairs of a matrix of dimension two) is not rejected: it calls
    [rand] eight times, applies the operation twice, runs the QR solve and
    the eigendecomposition, and returns a result. *)
Lemma oversized_request_is_computed :
  let E := Bench.env false in
  let w := Bench.world false [1; 2]%float in
  (Z.of_nat (wm_rows E (wm w)) <? 2 + 1) = true
  /\ is_returned (fst (eigen_embedding (RANDOMIZED E) 2 1 w)) = true
  /\ trace (snd (eigen_embedding (RANDOMIZED E) 2 1 w)) =
     repeat RandCall 8
     ++ [OperatorApplied; OperatorApplied; QrSolve; DenseEigenSolve].
Proof. vm_compute. repeat split. Qed.

(* ================================================================== *)
(** * Which eigenvalues go with the returned eigenvectors *)
(* ================================================================== *)

(** X2. The dense strategy, with a solver that answers [n] eigenpairs for
    the [n x n] matrix: the eigenvectors are columns [[skip, skip + d)], the
    eigenvalues are the last [d] of the spectrum, entries [[n - d, n)]. *)
Lemma dense_embed_values (E : Env) (d s : Z) (w : World E)
    (V : DenseMatrix) (lambda : DenseVector) :
  0 <= d -> 0 <= s ->
  self_adjoint_eigen E (to_dense E (wm w)) = (V, lambda) ->
  (wm_cols E (wm w) <= rows V)%nat ->
  d + s <= Z.of_nat (cols V) ->
  length lambda = cols V ->
  dense_embed d s w =
  (Returned
     (mkDense (wm_cols E (wm w))
        (column_slice V (wm_cols E (wm w)) (Z.to_nat s) (Z.to_nat d)),
      skipn (cols V - Z.to_nat d) lambda),
   logged w DenseEigenSolve).
Proof.
  intros Hd Hs Hsolve Hrows Hc Hl.
  rewrite dense_embed_run, Hsolve; simpl.
  rewrite block_in_range by lia.
  unfold tail.
  replace (0 <=? d) with true by (symmetry; apply Z.leb_le; lia).
  replace (d <=? Z.of_nat (length lambda)) with true
    by (symmetry; apply Z.leb_le; lia).
  simpl. now rewrite Hl.
Qed.

(** C1 fails on the code. On the weight matrix [diag(1,2)] with
    [target_dimension = 1] and [skip = 1] the randomized strategy returns one
    eigenvector and two eigenvalues, [1] and [2]: the whole spectrum of the
    small matrix, not its trailing [target_dimension] entries.  The
    eigenvector at index 0 is column [skip = 1] of the lifted eigenvectors
    (the direction of eigenvalue 2); the eigenvalue at index 0 is the
    smallest one, 1. *)
Theorem randomized_embed_returns_whole_spectrum :
  let w := Bench.world false [1; 2]%float in
  fst (randomized_embed 1 1 w) =
  Returned (mkDense 2 [[0x1.1a62633145c07p-53; 1]], [1; 2])%float.
Proof. vm_compute. reflexivity. Qed.

(** C2 fails on the code. On the weight matrix [diag(1,2,3)], whose
    ascending eigenpairs are [(1, e0)], [(2, e1)], [(3, e2)], the dense
    strategy with [target_dimension = 1] and [skip = 0] returns the
    eigenvector [e0] of position 0 with the eigenvalue [3] of position 2:
    the eigenvalues are the last [target_dimension] of the full spectrum, not
    those at positions [[skip, skip + target_dimension)]. *)
Theorem dense_embed_returns_last_eigenvalues :
  let w := Bench.world false [1; 2; 3]%float in
  self_adjoint_eigen (Bench.env false) (wm w) =
    (mkDense 3 [[1; 0; 0]; [0; 1; 0]; [0; 0; 1]], [1; 2; 3])%float
  /\ fst (dense_embed 1 0 w) = Returned (mkDense 3 [[1; 0; 0]], [3])%float.
Proof. vm_compute. split; reflexivity. Qed.

(* ================================================================== *)
(** * The uniform variates of the probe *)
(* ================================================================== *)

Lemma holds_from_spec (p : Z -> bool) (n : nat) (r x : Z) :
  holds_from p r n = true -> r <= x < r + Z.of_nat n -> p x = true.
Proof.
  revert r; induction n as [|n IH]; intros r H Hx.
  - lia.
  - simpl in H. apply andb_prop in H as [Hr Hrest].
    destruct (Z.eq_dec x r) as [->|Hne]; [exact Hr|].
    apply (IH (r + 1)); [exact Hrest | lia].
Qed.

(** X4. Where [RAND_MAX] is 32767 every sum is exact in binary32 and every
    variate lies strictly between 0 and 1. *)
Lemma uniform_variate_short_range (r : Z) :
  0 <= r <= 32767 -> in_open_unit (uniform_variate 32767 r) = true.
Proof.
  intros Hr.
  apply (holds_from_spec (fun x => in_open_unit (uniform_variate 32767 x))
           (Z.to_nat 32768) 0 r).
  - vm_compute. reflexivity.
  - lia.
Qed.

(** C9 fails on the code where [RAND_MAX] is [2^31 - 1] (glibc).  For
    [r = RAND_MAX] the binary32 sum [r + 1.f] and the binary32 denominator
    [(float) RAND_MAX + 2.f] both round to [2^31], so the variate is exactly
    1: not inside the open interval, and its logarithm is not negative.  The
    same happens for every [r] from [2^31 - 64] on. *)
Theorem uniform_variate_reaches_one :
  binary32_round (binary32_round (2 ^ 31 - 1) + 1) = 2 ^ 31
  /\ binary32_round (binary32_round (2 ^ 31 - 1) + 2) = 2 ^ 31
  /\ uniform_variate (2 ^ 31 - 1) (2 ^ 31 - 1) = 1%float
  /\ in_open_unit (uniform_variate (2 ^ 31 - 1) (2 ^ 31 - 1)) = false
  /\ holds_from (fun r => (uniform_variate (2 ^ 31 - 1) r =? 1)%float)
       (2 ^ 31 - 64) 64 = true.
Proof. vm_compute. repeat split. Qed.

(* ================================================================== *)
(** * Orthonormalisation on rank-deficient input *)
(* ================================================================== *)

(** C3 fails on the code. [Y] has three parallel columns, as the product of
    the all-ones 4 x 4 matrix with a probe has.  Column 0 is normalised.
    Column 1 has residual norm 0, below the tolerance: columns 1 and 2 are
    set to zero, and then the loop goes on: column 1 is scaled by [1/0] and
    column 2 is projected on it.  At the end of the pass columns 1 and 2
    hold NaN, not zero. *)
Theorem orthonormalize_rank_one :
  let Y := mkDense 4 [[1; 1; 1; 1]; [2; 2; 2; 2]; [3; 3; 3; 3]]%float in
  residual_norm (orthonormalize_upto Y 1) 1 = 0%float
  /\ columns (zero_from (project_all (orthonormalize_upto Y 1) 1) 1) =
     [[0.5; 0.5; 0.5; 0.5]; [0; 0; 0; 0]; [0; 0; 0; 0]]%float
  /\ columns (orthonormalize Y) =
     [[0.5; 0.5; 0.5; 0.5]; [nan; nan; nan; nan]; [nan; nan; nan; nan]]%float.
Proof. vm_compute. repeat split. Qed.

(* ================================================================== *)
(** * Binary64 arithmetic on zeros and NaN *)
(* ================================================================== *)

Section FloatFacts.

Local Open Scope float_scope.

Lemma nan_of_spec (x : float) : Prim2SF x = S754_nan -> x = nan.
Proof. intros H. apply Prim2SF_inj. rewrite H. reflexivity. Qed.

Lemma plus_zero_of_spec (x : float) : Prim2SF x = S754_zero false -> x = 0.
Proof. intros H. apply Prim2SF_inj. rewrite H. reflexivity. Qed.

Lemma mul_nan_r (x : float) : x * nan = nan.
Proof.
  apply nan_of_spec. rewrite FloatAxioms.mul_spec.
  change (Prim2SF nan) with S754_nan.
  destruct (Prim2SF x); reflexivity.
Qed.

Lemma mul_nan_l (x : float) : nan * x = nan.
Proof.
  apply nan_of_spec. rewrite FloatAxioms.mul_spec.
  change (Prim2SF nan) with S754_nan. reflexivity.
Qed.

Lemma add_nan_r (x : float) : x + nan = nan.
Proof.
  apply nan_of_spec. rewrite FloatAxioms.add_spec.
  change (Prim2SF nan) with S754_nan.
  destruct (Prim2SF x); reflexivity.
Qed.

Lemma add_nan_l (x : float) : nan + x = nan.
Proof.
  apply nan_of_spec. rewrite FloatAxioms.add_spec.
  change (Prim2SF nan) with S754_nan. reflexivity.
Qed.

Lemma sub_nan_r (x : float) : x - nan = nan.
Proof.
  apply nan_of_spec. rewrite FloatAxioms.sub_spec.
  change (Prim2SF nan) with S754_nan.
  destruct (Prim2SF x); reflexivity.
Qed.

Lemma sub_nan_l (x : float) : nan - x = nan.
Proof.
  apply nan_of_spec. rewrite FloatAxioms.sub_spec.
  change (Prim2SF nan) with S754_nan. reflexivity.
Qed.

Lemma zero_coeff_finite (x : float) :
  zero_coeff x = true -> finite_coeff x = true.
Proof.
  unfold zero_coeff, finite_coeff. destruct (Prim2SF x); auto.
Qed.

(** Zero times a finite number is a zero. *)
Lemma zero_mul_finite (x y : float) :
  zero_coeff x = true -> finite_coeff y = true -> zero_coeff (x * y) = true.
Proof.
  unfold zero_coeff, finite_coeff. rewrite FloatAxioms.mul_spec.
  destruct (Prim2SF x); try discriminate.
  destruct (Prim2SF y); try discriminate; reflexivity.
Qed.

Lemma finite_mul_zero (x y : float) :
  finite_coeff x = true -> zero_coeff y = true -> zero_coeff (x * y) = true.
Proof.
  unfold zero_coeff, finite_coeff. rewrite FloatAxioms.mul_spec.
  destruct (Prim2SF y); try discriminate.
  destruct (Prim2SF x); try discriminate; reflexivity.
Qed.

Lemma zero_add_zero (x y : float) :
  zero_coeff x = true -> zero_coeff y = true -> zero_coeff (x + y) = true.
Proof.
  unfold zero_coeff. rewrite FloatAxioms.add_spec.
  destruct (Prim2SF x) as [[|]| | |]; try discriminate;
    destruct (Prim2SF y) as [[|]| | |]; try discriminate; reflexivity.
Qed.

Lemma zero_sub_zero (x y : float) :
  zero_coeff x = true -> zero_coeff y = true -> zero_coeff (x - y) = true.
Proof.
  unfold zero_coeff. rewrite FloatAxioms.sub_spec.
  destruct (Prim2SF x) as [[|]| | |]; try discriminate;
    destruct (Prim2SF y) as [[|]| | |]; try discriminate; reflexivity.
Qed.

(** The square of a zero is [+0]. *)
Lemma zero_square (x : float) : zero_coeff x = true -> x * x = 0.
Proof.
  unfold zero_coeff. intros H. apply plus_zero_of_spec.
  rewrite FloatAxioms.mul_spec.
  destruct (Prim2SF x) as [[|]| | |]; try discriminate; reflexivity.
Qed.

Lemma zero_below_tolerance : (0 <? TOLERANCE) = true.
Proof. reflexivity. Qed.

Lemma nan_not_below_tolerance : (nan <? TOLERANCE) = false.
Proof. reflexivity. Qed.

Lemma one_over_zero : 1 / 0 = infinity.
Proof. reflexivity. Qed.

Lemma zero_times_infinity : 0 * infinity = nan.
Proof. reflexivity. Qed.

Lemma sqrt_zero : PrimFloat.sqrt 0 = 0.
Proof. reflexivity. Qed.

Lemma sqrt_nan : PrimFloat.sqrt nan = nan.
Proof. reflexivity. Qed.

Lemma one_over_nan : 1 / nan = nan.
Proof. reflexivity. Qed.

End FloatFacts.

(* ================================================================== *)
(** * Columns under the steps of the orthonormalisation *)
(* ================================================================== *)

Section Columns.

Lemma length_replace_nth {A : Type} (i : nat) (x : A) (l : list A) :
  length (replace_nth i x l) = length l.
Proof.
  revert i; induction l as [|h t IH]; intros [|i]; simpl; auto.
Qed.

Lemma nth_replace_nth_same {A : Type} (i : nat) (x d : A) (l : list A) :
  (i < length l)%nat -> nth i (replace_nth i x l) d = x.
Proof.
  revert i; induction l as [|h t IH]; intros [|i] H; simpl in *;
    try lia; auto. apply IH; lia.
Qed.

Lemma nth_replace_nth_other {A : Type} (i k : nat) (x d : A) (l : list A) :
  i <> k -> nth k (replace_nth i x l) d = nth k l d.
Proof.
  revert i k; induction l as [|h t IH]; intros [|i] [|k] H; simpl;
    try reflexivity; try congruence. apply IH; congruence.
Qed.

Lemma cols_set_col (Y : DenseMatrix) (i : nat) (v : DenseVector) :
  cols (set_col Y i v) = cols Y.
Proof. apply length_replace_nth. Qed.

Lemma col_set_col_same (Y : DenseMatrix) (i : nat) (v : DenseVector) :
  (i < cols Y)%nat -> col (set_col Y i v) i = v.
Proof. apply nth_replace_nth_same. Qed.

Lemma col_set_col_other (Y : DenseMatrix) (i k : nat) (v : DenseVector) :
  i <> k -> col (set_col Y i v) k = col Y k.
Proof. apply nth_replace_nth_other. Qed.

Lemma length_vsub_scaled (u : DenseVector) (r : float) (v : DenseVector) :
  length (vsub_scaled u r v) = length u.
Proof.
  revert v; induction u as [|x u IH]; intros [|y v]; simpl; auto.
Qed.

Lemma length_vscale (c : float) (u : DenseVector) :
  length (vscale c u) = length u.
Proof. apply length_map. Qed.

Lemma length_vzero (u : DenseVector) : length (vzero u) = length u.
Proof. apply length_map. Qed.

(** A turn of the inner loop writes column [i] only, and keeps its size. *)
Lemma cols_project_out (i j : nat) (Y : DenseMatrix) :
  cols (project_out i Y j) = cols Y.
Proof. apply cols_set_col. Qed.

Lemma col_project_out_other (i j k : nat) (Y : DenseMatrix) :
  i <> k -> col (project_out i Y j) k = col Y k.
Proof. apply col_set_col_other. Qed.

Lemma col_project_out_same (i j : nat) (Y : DenseMatrix) :
  (i < cols Y)%nat ->
  col (project_out i Y j) i =
  vsub_scaled (col Y i) (dot (col Y i) (col Y j)) (col Y j).
Proof. apply col_set_col_same. Qed.

Lemma cols_project_fold (i : nat) (js : list nat) (Y : DenseMatrix) :
  cols (fold_left (project_out i) js Y) = cols Y.
Proof.
  revert Y; induction js as [|j js IH]; intros Y; simpl; [reflexivity|].
  now rewrite IH, cols_project_out.
Qed.

Lemma col_project_fold_other (i k : nat) (js : list nat) (Y : DenseMatrix) :
  i <> k -> col (fold_left (project_out i) js Y) k = col Y k.
Proof.
  intros H. revert Y; induction js as [|j js IH]; intros Y; simpl;
    [reflexivity|].
  now rewrite IH, col_project_out_other.
Qed.

Lemma length_col_project_fold (i : nat) (js : list nat) (Y : DenseMatrix) :
  (i < cols Y)%nat ->
  length (col (fold_left (project_out i) js Y) i) = length (col Y i).
Proof.
  revert Y; induction js as [|j js IH]; intros Y Hi; simpl; [reflexivity|].
  rewrite IH by now rewrite cols_project_out.
  rewrite col_project_out_same by assumption.
  apply length_vsub_scaled.
Qed.

Lemma cols_zero_from (Y : DenseMatrix) (i : nat) :
  cols (zero_from Y i) = cols Y.
Proof.
  unfold cols, zero_from; simpl.
  rewrite length_app, length_map, <- length_app, firstn_skipn. reflexivity.
Qed.

Lemma nth_zero_from (l : list DenseVector) (i k : nat) :
  nth k (firstn i l ++ map vzero (skipn i l)) [] =
  if (k <? i)%nat then nth k l [] else vzero (nth k l []).
Proof.
  revert l k; induction i as [|i IH]; intros l k.
  - simpl. change (@nil float) with (vzero []) at 1. now rewrite map_nth.
  - destruct l as [|c l]; simpl.
    + destruct k; simpl; [reflexivity|]. now destruct (_ <? _)%nat.
    + destruct k as [|k]; [reflexivity|]. apply IH.
Qed.

Lemma col_zero_from (Y : DenseMatrix) (i k : nat) :
  col (zero_from Y i) k =
  if (k <? i)%nat then col Y k else vzero (col Y k).
Proof. apply nth_zero_from. Qed.

(** The body of the outer loop for column [i]: the columns before [i] are
    not written, no column changes its size, no column is added. *)
Lemma cols_orthonormalize_column (Y : DenseMatrix) (i : nat) :
  cols (orthonormalize_column Y i) = cols Y.
Proof.
  unfold orthonormalize_column, project_all.
  rewrite cols_set_col.
  destruct (_ <? _)%float;
    now rewrite ?cols_zero_from, cols_project_fold.
Qed.

Lemma col_orthonormalize_column_before (Y : DenseMatrix) (i k : nat) :
  (k < i)%nat -> col (orthonormalize_column Y i) k = col Y k.
Proof.
  intros Hk. unfold orthonormalize_column, project_all.
  rewrite col_set_col_other by lia.
  destruct (_ <? _)%float.
  - rewrite col_zero_from.
    replace (k <? i)%nat with true by (symmetry; apply Nat.ltb_lt; lia).
    apply col_project_fold_other; lia.
  - apply col_project_fold_other; lia.
Qed.

Lemma length_col_orthonormalize_column (Y : DenseMatrix) (i k : nat) :
  (i < cols Y)%nat ->
  length (col (orthonormalize_column Y i) k) = length (col Y k).
Proof.
  intros Hi. unfold orthonormalize_column, project_all.
  set (Y1 := fold_left (project_out i) (seq 0 i) Y).
  assert (H1 : forall k, length (col Y1 k) = length (col Y k)).
  { intros k'. destruct (Nat.eq_dec i k') as [<-|Hne].
    - now apply length_col_project_fold.
    - unfold Y1. now rewrite col_project_fold_other. }
  assert (Hc1 : cols Y1 = cols Y) by apply cols_project_fold.
  set (Y2 := if (norm (col Y1 i) <? TOLERANCE)%float then zero_from Y1 i else Y1).
  assert (H2 : forall k, length (col Y2 k) = length (col Y k)).
  { intros k'. unfold Y2. destruct (_ <? _)%float; [|apply H1].
    rewrite col_zero_from. destruct (k' <? i)%nat; [apply H1|].
    now rewrite length_vzero. }
  assert (Hc2 : cols Y2 = cols Y).
  { unfold Y2. destruct (_ <? _)%float; [now rewrite cols_zero_from|exact Hc1]. }
  destruct (Nat.eq_dec i k) as [<-|Hne].
  - rewrite col_set_col_same by lia. now rewrite length_vscale.
  - now rewrite col_set_col_other.
Qed.

Lemma orthonormalize_upto_succ (Y : DenseMatrix) (t : nat) :
  orthonormalize_upto Y (S t) =
  orthonormalize_column (orthonormalize_upto Y t) t.
Proof.
  unfold orthonormalize_upto. now rewrite seq_S, fold_left_app.
Qed.

Lemma cols_orthonormalize_upto (Y : DenseMatrix) (t : nat) :
  cols (orthonormalize_upto Y t) = cols Y.
Proof.
  induction t as [|t IH]; [reflexivity|].
  now rewrite orthonormalize_upto_succ, cols_orthonormalize_column.
Qed.

Lemma length_col_orthonormalize_upto (Y : DenseMatrix) (t k : nat) :
  (t <= cols Y)%nat ->
  length (col (orthonormalize_upto Y t) k) = length (col Y k).
Proof.
  induction t as [|t IH]; intros Ht; [reflexivity|].
  rewrite orthonormalize_upto_succ, length_col_orthonormalize_column.
  - apply IH; lia.
  - rewrite cols_orthonormalize_upto; lia.
Qed.

End Columns.

(* ================================================================== *)
(** * Zero columns and NaN columns *)
(* ================================================================== *)

Section Degenerate.

Local Open Scope float_scope.

(** ** Zeros *)

Lemma all_zero_vzero (u : DenseVector) : all_zero (vzero u).
Proof.
  unfold all_zero, vzero. apply Forall_forall. intros x Hx.
  apply in_map_iff in Hx as (y & <- & _). reflexivity.
Qed.

Lemma all_zero_finite (u : DenseVector) : all_zero u -> all_finite u.
Proof.
  unfold all_zero, all_finite. apply Forall_impl. apply zero_coeff_finite.
Qed.

Lemma vmul_zero_finite (u v : DenseVector) :
  all_zero u -> all_finite v -> all_zero (vmul u v).
Proof.
  intros Hu; revert v; induction Hu as [|x u Hx Hu IH]; intros v Hv.
  - constructor.
  - destruct Hv as [|y v Hy Hv]; simpl; constructor.
    + now apply zero_mul_finite.
    + now apply IH.
Qed.

Lemma fold_add_zero (l : DenseVector) (acc : float) :
  zero_coeff acc = true -> all_zero l ->
  zero_coeff (fold_left PrimFloat.add l acc) = true.
Proof.
  intros Hacc Hl; revert acc Hacc; induction Hl as [|x t Hx Ht IH];
    intros acc Hacc; simpl; [assumption|].
  apply IH. now apply zero_add_zero.
Qed.

Lemma vsum_zero (l : DenseVector) : all_zero l -> zero_coeff (vsum l) = true.
Proof.
  intros [|x t Hx Ht]; simpl; [reflexivity|]. now apply fold_add_zero.
Qed.

Lemma dot_zero_finite (u v : DenseVector) :
  all_zero u -> all_finite v -> zero_coeff (dot u v) = true.
Proof. intros Hu Hv. apply vsum_zero. now apply vmul_zero_finite. Qed.

Lemma vsub_scaled_zero (u : DenseVector) (r : float) (v : DenseVector) :
  all_zero u -> zero_coeff r = true -> all_finite v ->
  all_zero (vsub_scaled u r v).
Proof.
  intros Hu Hr; revert v; induction Hu as [|x u Hx Hu IH]; intros v Hv.
  - destruct v; constructor.
  - destruct Hv as [|y v Hy Hv]; simpl; constructor; auto.
    + apply zero_sub_zero; [assumption|]. now apply zero_mul_finite.
    + now apply IH.
Qed.

Lemma fold_add_plus_zero (l : DenseVector) :
  Forall (fun x => x = 0) l -> fold_left PrimFloat.add l 0 = 0.
Proof.
  induction 1 as [|x t -> Ht IH]; simpl; [reflexivity|]. exact IH.
Qed.

(** The norm of a column of zeros is [+0], whatever the signs. *)
Lemma norm_zero (u : DenseVector) : all_zero u -> norm u = 0.
Proof.
  intros Hu. unfold norm, dot.
  assert (Hsq : Forall (fun x => x = 0) (vmul u u)).
  { induction Hu as [|x u Hx Hu IH]; simpl; constructor; auto.
    now apply zero_square. }
  destruct Hsq as [|p ps -> Hps]; simpl; [reflexivity|].
  now rewrite fold_add_plus_zero.
Qed.

Lemma project_fold_zero (i : nat) (js : list nat) (Y : DenseMatrix) :
  (i < cols Y)%nat ->
  all_zero (col Y i) ->
  (forall j, In j js -> j <> i /\ all_finite (col Y j)) ->
  all_zero (col (fold_left (project_out i) js Y) i).
Proof.
  revert Y; induction js as [|j js IH]; intros Y Hi Hz Hjs; simpl;
    [assumption|].
  destruct (Hjs j (or_introl eq_refl)) as [Hne Hfin].
  apply IH.
  - now rewrite cols_project_out.
  - rewrite col_project_out_same by assumption.
    apply vsub_scaled_zero; auto. now apply dot_zero_finite.
  - intros j' Hj'. destruct (Hjs j' (or_intror Hj')) as [Hne' Hfin'].
    split; [assumption|]. rewrite col_project_out_other by congruence.
    assumption.
Qed.

(** A column of zeros whose predecessors are finite has residual norm
    [+0] exactly. *)
Lemma residual_norm_zero (Y : DenseMatrix) (i : nat) :
  (i < cols Y)%nat ->
  all_zero (col Y i) ->
  (forall j, (j < i)%nat -> all_finite (col Y j)) ->
  residual_norm Y i = 0.
Proof.
  intros Hi Hz Hfin. unfold residual_norm, project_all.
  apply norm_zero. apply project_fold_zero; auto.
  intros j Hj. apply in_seq in Hj. split; [lia|]. apply Hfin; lia.
Qed.

(** ** What the scaling does *)

(** The last statement of the loop body: column [i] is scaled in either
    branch of the test. *)
Lemma col_orthonormalize_column_same (Y : DenseMatrix) (i : nat) :
  (i < cols Y)%nat ->
  col (orthonormalize_column Y i) i =
  vscale (1 / residual_norm Y i)
    (if residual_norm Y i <? TOLERANCE
     then vzero (col (project_all Y i) i)
     else col (project_all Y i) i).
Proof.
  intros Hi. unfold orthonormalize_column, residual_norm.
  assert (Hc : cols (project_all Y i) = cols Y) by apply cols_project_fold.
  destruct (_ <? _).
  - rewrite col_set_col_same by (rewrite cols_zero_from; lia).
    rewrite col_zero_from, Nat.ltb_irrefl. reflexivity.
  - rewrite col_set_col_same by lia. reflexivity.
Qed.

Lemma vscale_vzero_infinity (u : DenseVector) :
  all_nan (vscale infinity (vzero u)).
Proof.
  unfold all_nan, vscale, vzero. rewrite map_map.
  apply Forall_forall. intros x Hx.
  apply in_map_iff in Hx as (y & <- & _). reflexivity.
Qed.

(** A column whose residual norm is exactly zero is set to zero and then
    multiplied by [1/0]: it holds NaN. *)
Lemma zero_norm_gives_nan (Y : DenseMatrix) (i : nat) :
  (i < cols Y)%nat ->
  residual_norm Y i = 0 ->
  all_nan (col (orthonormalize_column Y i) i).
Proof.
  intros Hi Hn. rewrite col_orthonormalize_column_same by assumption.
  rewrite Hn, zero_below_tolerance, one_over_zero.
  apply vscale_vzero_infinity.
Qed.

(** ** NaN *)

Lemma fold_add_nan (l : DenseVector) : fold_left PrimFloat.add l nan = nan.
Proof.
  induction l as [|x l IH]; simpl; [reflexivity|]. now rewrite add_nan_l.
Qed.

Lemma dot_nan_r (u v : DenseVector) :
  u <> [] -> v <> [] -> all_nan v -> dot u v = nan.
Proof.
  intros Hu Hv Hnan. destruct u as [|x u]; [congruence|].
  destruct Hnan as [|y v -> Hnan]; [congruence|].
  unfold dot; simpl. rewrite mul_nan_r. apply fold_add_nan.
Qed.

Lemma dot_nan_l (u v : DenseVector) :
  u <> [] -> v <> [] -> all_nan u -> dot u v = nan.
Proof.
  intros Hu Hv Hnan. destruct v as [|y v]; [congruence|].
  destruct Hnan as [|x u -> Hnan]; [congruence|].
  unfold dot; simpl. rewrite mul_nan_l. apply fold_add_nan.
Qed.

Lemma norm_nan (u : DenseVector) : u <> [] -> all_nan u -> norm u = nan.
Proof.
  intros Hu Hnan. unfold norm. rewrite dot_nan_l by assumption. reflexivity.
Qed.

Lemma vsub_scaled_nan_left (u : DenseVector) (r : float) (v : DenseVector) :
  all_nan u -> all_nan (vsub_scaled u r v).
Proof.
  intros Hu; revert v; induction Hu as [|x u -> Hu IH]; intros v.
  - destruct v; constructor.
  - destruct v as [|y v]; simpl; constructor; auto.
    + apply sub_nan_l.
    + apply IH.
Qed.

Lemma vsub_scaled_nan_factor (u v : DenseVector) :
  (length u <= length v)%nat -> all_nan (vsub_scaled u nan v).
Proof.
  revert v; induction u as [|x u IH]; intros v Hl.
  - destruct v; constructor.
  - destruct v as [|y v]; simpl in *; [lia|]. constructor.
    + now rewrite mul_nan_l, sub_nan_r.
    + apply IH; lia.
Qed.

Lemma all_nan_vscale (c : float) (u : DenseVector) :
  all_nan u -> all_nan (vscale c u).
Proof.
  induction 1 as [|x u -> Hu IH]; simpl; constructor; auto.
  apply mul_nan_l.
Qed.

Lemma project_fold_nan (i : nat) (js : list nat) (Y : DenseMatrix) :
  (i < cols Y)%nat ->
  all_nan (col Y i) ->
  all_nan (col (fold_left (project_out i) js Y) i).
Proof.
  revert Y; induction js as [|j js IH]; intros Y Hi Hnan; simpl;
    [assumption|].
  apply IH.
  - now rewrite cols_project_out.
  - rewrite col_project_out_same by assumption.
    now apply vsub_scaled_nan_left.
Qed.

(** Projecting on a NaN column fills the projected column with NaN. *)
Lemma project_out_nan (i j : nat) (Y : DenseMatrix) :
  (i < cols Y)%nat -> col Y i <> [] ->
  length (col Y i) = length (col Y j) ->
  all_nan (col Y j) ->
  all_nan (col (project_out i Y j) i).
Proof.
  intros Hi Hne Hlen Hnan.
  rewrite col_project_out_same by assumption.
  rewrite dot_nan_r; auto.
  - apply vsub_scaled_nan_factor. lia.
  - intros Hj. rewrite Hj in Hlen. destruct (col Y i); [congruence|discriminate].
Qed.

(** With a NaN column among its predecessors, column [i] is NaN after the
    projections. *)
Lemma project_all_nan (Y : DenseMatrix) (i j : nat) :
  (j < i)%nat -> (i < cols Y)%nat ->
  col Y i <> [] ->
  length (col Y i) = length (col Y j) ->
  all_nan (col Y j) ->
  all_nan (col (project_all Y i) i).
Proof.
  intros Hj Hi Hne Hlen Hnan. unfold project_all.
  replace (seq 0 i) with (seq 0 j ++ j :: seq (S j) (i - S j)).
  2:{ change (j :: seq (S j) (i - S j)) with (seq j (S (i - S j))).
      replace j with (0 + j)%nat at 2 by reflexivity.
      rewrite <- seq_app. f_equal. lia. }
  rewrite fold_left_app. simpl.
  set (Y0 := fold_left (project_out i) (seq 0 j) Y).
  apply project_fold_nan.
  - rewrite cols_project_out. unfold Y0. now rewrite cols_project_fold.
  - apply project_out_nan.
    + unfold Y0. now rewrite cols_project_fold.
    + intros H0.
      assert (Hl0 : length (col Y0 i) = length (col Y i))
        by now apply length_col_project_fold.
      rewrite H0 in Hl0. destruct (col Y i); [congruence|discriminate].
    + unfold Y0. rewrite length_col_project_fold by assumption.
      rewrite col_project_fold_other by lia. assumption.
    + unfold Y0. rewrite col_project_fold_other by lia. assumption.
Qed.

(** With a NaN column among its predecessors, column [i] has residual norm
    NaN, is not set to zero and holds NaN after its turn. *)
Lemma nan_predecessor_gives_nan (Y : DenseMatrix) (i j : nat) :
  (j < i)%nat -> (i < cols Y)%nat ->
  col Y i <> [] ->
  length (col Y i) = length (col Y j) ->
  all_nan (col Y j) ->
  residual_norm Y i = nan
  /\ all_nan (col (orthonormalize_column Y i) i).
Proof.
  intros Hj Hi Hne Hlen Hnan.
  assert (Hp : all_nan (col (project_all Y i) i))
    by now apply (project_all_nan Y i j).
  assert (Hr : residual_norm Y i = nan).
  { unfold residual_norm. apply norm_nan; [|assumption].
    intros H0.
    assert (Hl0 : length (col (project_all Y i) i) = length (col Y i))
      by now apply length_col_project_fold.
    rewrite H0 in Hl0. destruct (col Y i); [congruence|discriminate]. }
  split; [assumption|].
  rewrite col_orthonormalize_column_same by assumption.
  rewrite Hr, nan_not_below_tolerance.
  now apply all_nan_vscale.
Qed.

End Degenerate.

(* ================================================================== *)
(** * The pass after a rank-deficient column *)
(* ================================================================== *)

Section AfterDeficiency.

Local Open Scope float_scope.

Lemma col_orthonormalize_column_after (Y : DenseMatrix) (i k : nat) :
  (i < k)%nat ->
  col (orthonormalize_column Y i) k =
  if residual_norm Y i <? TOLERANCE then vzero (col Y k) else col Y k.
Proof.
  intros Hk. unfold orthonormalize_column, residual_norm, project_all.
  rewrite col_set_col_other by lia.
  destruct (_ <? _).
  - rewrite col_zero_from.
    replace (k <? i)%nat with false by (symmetry; apply Nat.ltb_ge; lia).
    now rewrite col_project_fold_other by lia.
  - apply col_project_fold_other; lia.
Qed.

(** A column set to zero for a norm that is small but has a finite
    reciprocal stays zero, and the column after it then has residual norm
    exactly zero: its turn fills it with NaN. *)
Lemma successor_of_zeroed_column (Y : DenseMatrix) (i : nat) :
  (S i < cols Y)%nat ->
  (residual_norm Y i <? TOLERANCE) = true ->
  finite_coeff (1 / residual_norm Y i) = true ->
  (forall j, (j < i)%nat -> all_finite (col Y j)) ->
  all_zero (col (orthonormalize_column Y i) i)
  /\ residual_norm (orthonormalize_column Y i) (S i) = 0
  /\ all_nan (col (orthonormalize_column (orthonormalize_column Y i) (S i)) (S i)).
Proof.
  intros Hi Hsmall Hrec Hfin.
  assert (Hz : all_zero (col (orthonormalize_column Y i) i)).
  { rewrite col_orthonormalize_column_same by lia. rewrite Hsmall.
    unfold all_zero, vscale, vzero. rewrite map_map.
    apply Forall_forall. intros x Hx.
    apply in_map_iff in Hx as (y & <- & _).
    now apply zero_mul_finite. }
  assert (Hn : residual_norm (orthonormalize_column Y i) (S i) = 0).
  { apply residual_norm_zero.
    - now rewrite cols_orthonormalize_column.
    - rewrite col_orthonormalize_column_after by lia. rewrite Hsmall.
      apply all_zero_vzero.
    - intros j Hj. destruct (Nat.eq_dec j i) as [->|Hne].
      + now apply all_zero_finite.
      + rewrite col_orthonormalize_column_before by lia. apply Hfin; lia. }
  repeat split; try assumption.
  apply zero_norm_gives_nan; [|assumption].
  now rewrite cols_orthonormalize_column.
Qed.

Lemma nonempty_of_length (u : DenseVector) (n : nat) :
  length u = n -> (1 <= n)%nat -> u <> [].
Proof. intros Hl Hn ->. simpl in Hl. lia. Qed.

(** Once a column holds NaN after its turn, every column after it holds
    NaN after its own turn, and none of them is written again. *)
Lemma nan_spreads (Y : DenseMatrix) (i t : nat) :
  well_formed Y -> (1 <= rows Y)%nat ->
  all_nan (col (orthonormalize_upto Y (S i)) i) ->
  (S i <= t <= cols Y)%nat ->
  forall k, (i <= k < t)%nat -> all_nan (col (orthonormalize_upto Y t) k).
Proof.
  intros Hwf Hrows Hnan. induction t as [|t IH]; intros Ht k Hk; [lia|].
  destruct (Nat.eq_dec t i) as [->|Hne].
  - replace k with i by lia. assumption.
  - assert (IH' : forall k, (i <= k < t)%nat ->
                    all_nan (col (orthonormalize_upto Y t) k))
      by (apply IH; lia).
    rewrite orthonormalize_upto_succ.
    destruct (Nat.eq_dec k t) as [->|Hkt].
    + apply (nan_predecessor_gives_nan (orthonormalize_upto Y t) t i).
      * lia.
      * rewrite cols_orthonormalize_upto; lia.
      * apply (nonempty_of_length _ (rows Y)); [|assumption].
        rewrite length_col_orthonormalize_upto by lia.
        apply well_formed_length; [assumption|lia].
      * rewrite !length_col_orthonormalize_upto by lia.
        rewrite !well_formed_length by (assumption || lia). reflexivity.
      * apply IH'; lia.
    + rewrite col_orthonormalize_column_before by lia. apply IH'; lia.
Qed.

(** X1. If the residual norm of column [i] is exactly zero when its turn
    comes, then at the end of the pass column [i] and every column after it
    hold NaN. *)
Lemma orthonormalize_nan_tail (Y : DenseMatrix) (i : nat) :
  well_formed Y -> (1 <= rows Y)%nat ->
  (i < cols Y)%nat ->
  residual_norm (orthonormalize_upto Y i) i = 0 ->
  forall k, (i <= k < cols Y)%nat -> all_nan (col (orthonormalize Y) k).
Proof.
  intros Hwf Hrows Hi Hn k Hk.
  change (orthonormalize Y) with (orthonormalize_upto Y (cols Y)).
  apply (nan_spreads Y i (cols Y)); try assumption; try lia.
  rewrite orthonormalize_upto_succ.
  apply zero_norm_gives_nan; [|assumption].
  rewrite cols_orthonormalize_upto; lia.
Qed.

End AfterDeficiency.

(** C4 as the code has it. In the body of the orthonormalisation loop
    the scaling of column [i] by [1/norm] is the last statement and is
    executed in both branches of the test [norm < 1e-4], also when that
    test has just set columns [i] to [m-1] to zero.  So (1) a column whose
    residual norm is exactly zero is set to zero and multiplied by
    [1/0 = infinity]: its entries become NaN instead of staying zero.
    (2) This is the case of the column that follows a column set to zero
    for a small norm with a finite reciprocal, when the columns before are
    finite: the zeroed column stays zero and its successor has residual norm
    exactly zero.  (3) A column that follows a NaN column does not have
    residual norm zero: its residual norm is NaN, it is not set to zero,
    and its entries become NaN through the projection. *)
Theorem scaling_is_unconditional (Y : DenseMatrix) (i : nat) :
  (i < cols Y)%nat ->
  col (orthonormalize_column Y i) i =
    vscale (1 / residual_norm Y i)%float
      (if (residual_norm Y i <? TOLERANCE)%float
       then vzero (col (project_all Y i) i)
       else col (project_all Y i) i)
  /\ (residual_norm Y i = 0%float ->
      (1 / residual_norm Y i)%float = infinity
      /\ all_nan (col (orthonormalize_column Y i) i))
  /\ ((S i < cols Y)%nat ->
      (residual_norm Y i <? TOLERANCE)%float = true ->
      finite_coeff (1 / residual_norm Y i)%float = true ->
      (forall j, (j < i)%nat -> all_finite (col Y j)) ->
      all_zero (col (orthonormalize_column Y i) i)
      /\ residual_norm (orthonormalize_column Y i) (S i) = 0%float
      /\ all_nan
           (col (orthonormalize_column (orthonormalize_column Y i) (S i)) (S i)))
  /\ (forall j, (j < i)%nat ->
      col Y i <> [] ->
      length (col Y i) = length (col Y j) ->
      all_nan (col Y j) ->
      residual_norm Y i = nan
      /\ all_nan (col (orthonormalize_column Y i) i)).
Proof.
  intros Hi. split; [|split; [|split]].
  - now apply col_orthonormalize_column_same.
  - intros Hn. split.
    + rewrite Hn. reflexivity.
    + now apply zero_norm_gives_nan.
  - intros HS Hsmall Hrec Hfin. now apply successor_of_zeroed_column.
  - intros j Hj Hne Hlen Hnan. now apply (nan_predecessor_gives_nan Y i j).
Qed.

(** A pass whose first column has norm [2^-20]: column 0 stays zero,
    column 1 has residual norm zero and becomes NaN, column 2 has residual
    norm NaN and becomes NaN. *)
Lemma scaling_is_unconditional_witness :
  let Y := mkDense 3 [[0x1p-20; 0; 0]; [1; 2; 3]; [4; 5; 6]]%float in
  let Y1 := orthonormalize_column Y 0 in
  let Y2 := orthonormalize_column Y1 1 in
  (0 < cols Y)%nat
  /\ (residual_norm Y 0 <? TOLERANCE)%float = true
  /\ all_zero (col Y1 0)
  /\ residual_norm Y1 1 = 0%float
  /\ all_nan (col Y2 1)
  /\ residual_norm Y2 2 = nan
  /\ all_nan (col (orthonormalize_column Y2 2) 2).
Proof.
  intros Y Y1 Y2.
  assert (H0 : (0 < cols Y)%nat) by (vm_compute; lia).
  assert (Hsmall : (residual_norm Y 0 <? TOLERANCE)%float = true)
    by (vm_compute; reflexivity).
  destruct (scaling_is_unconditional Y 0 H0) as (_ & _ & Hsucc & _).
  destruct Hsucc as (Hz & Hn & Hnan);
    [ vm_compute; lia | exact Hsmall | vm_compute; reflexivity
    | intros j Hj; lia | ].
  assert (H2 : (2 < cols Y2)%nat) by (vm_compute; lia).
  destruct (scaling_is_unconditional Y2 2 H2) as (_ & _ & _ & Hpred).
  destruct (Hpred 1%nat) as (Hr & Hlast);
    [ lia | vm_compute; discriminate | vm_compute; reflexivity | exact Hnan | ].
  repeat split; assumption.
Defined.

(** C4 fails on the code in its aside. In this 3 x 3 matrix column 0 has
    norm [2^-20], below the tolerance: the three columns are set to zero and
    column 0 stays zero.  Column 1 then has residual norm exactly zero and
    becomes NaN.  Column 2 follows two columns that were set to zero, and was
    set to zero twice itself, but its residual norm is NaN, not zero: it is
    projected on the NaN of column 1. *)
Lemma nan_residual_after_zeroed_columns :
  let Y := mkDense 3 [[0x1p-20; 0; 0]; [1; 2; 3]; [4; 5; 6]]%float in
  (residual_norm Y 0 <? TOLERANCE)%float = true
  /\ columns (orthonormalize_upto Y 1) =
     [[0; 0; 0]; [0; 0; 0]; [0; 0; 0]]%float
  /\ residual_norm (orthonormalize_upto Y 1) 1 = 0%float
  /\ columns (orthonormalize_upto Y 2) =
     [[0; 0; 0]; [nan; nan; nan]; [0; 0; 0]]%float
  /\ residual_norm (orthonormalize_upto Y 2) 2 = nan
  /\ (residual_norm (orthonormalize_upto Y 2) 2 =? 0)%float = false
  /\ columns (orthonormalize Y) =
     [[0; 0; 0]; [nan; nan; nan]; [nan; nan; nan]]%float.
Proof. vm_compute. repeat split. Qed.

(* ================================================================== *)
(** * The general facts on concrete inputs *)
(* ================================================================== *)

(** The pass on three parallel columns: the second and the third end as
    NaN. *)
Lemma orthonormalize_nan_tail_witness :
  let Y := mkDense 4 [[1; 1; 1; 1]; [2; 2; 2; 2]; [3; 3; 3; 3]]%float in
  residual_norm (orthonormalize_upto Y 1) 1 = 0%float
  /\ all_nan (col (orthonormalize Y) 1)
  /\ all_nan (col (orthonormalize Y) 2).
Proof.
  intros Y.
  assert (Hn : residual_norm (orthonormalize_upto Y 1) 1 = 0%float)
    by (vm_compute; reflexivity).
  assert (Hwf : well_formed Y) by (repeat constructor).
  assert (Hrows : (1 <= rows Y)%nat) by (simpl; lia).
  assert (Hi : (1 < cols Y)%nat) by (vm_compute; lia).
  split; [exact Hn|].
  split; apply (orthonormalize_nan_tail Y 1 Hwf Hrows Hi Hn);
    vm_compute; lia.
Defined.

(** The dense strategy on [diag(1,2,3)] with [target_dimension = 1] and
    [skip = 1]. *)
Lemma dense_embed_values_witness :
  let w := Bench.world false [1; 2; 3]%float in
  dense_embed 1 1 w =
  (Returned
     (mkDense 3 (column_slice (Bench.identity 3) 3 1 1),
      skipn (3 - 1) [1; 2; 3]%float),
   logged w DenseEigenSolve).
Proof.
  intros w.
  apply (dense_embed_values (Bench.env false) 1 1 w (Bench.identity 3)
           [1; 2; 3]%float);
    solve [ reflexivity | lia | cbn; lia ].
Defined.

(** The smallest and the largest draw where [RAND_MAX] is 32767. *)
Lemma uniform_variate_short_range_witness :
  in_open_unit (uniform_variate 32767 0) = true
  /\ in_open_unit (uniform_variate 32767 32767) = true.
Proof.
  split; apply uniform_variate_short_range; lia.
Defined.

(* ================================================================== *)
(** * The probe: its shape and the random numbers it takes *)
(* ================================================================== *)

Section Probe.

Context {E : Env}.

Lemma advance_add (a b : nat) (g : RandState E) :
  advance E (a + b) g = advance E b (advance E a g).
Proof.
  revert g; induction a as [|a IH]; intros g; simpl; [reflexivity|apply IH].
Qed.

Lemma row_draws_closed (c : nat) : row_draws c = (2 * Nat.div2 (S c))%nat.
Proof.
  induction c as [c IH] using (well_founded_induction Wf_nat.lt_wf).
  destruct c as [|[|c]]; try reflexivity.
  change (row_draws (S (S c))) with (2 + row_draws c)%nat.
  rewrite (IH c) by lia.
  change (Nat.div2 (S (S (S c)))) with (S (Nat.div2 (S c))). lia.
Qed.

Lemma draw_uniform_full (w : World E) :
  draw_uniform w =
  (Returned (uniform_variate (RAND_MAX E) (fst (rand E (rng w)))),
   mkWorld (wm w) (advance E 1 (rng w)) (trace w ++ [RandCall])).
Proof.
  unfold draw_uniform, bind, call_rand, ret; simpl.
  destruct (rand E (rng w)) as [r g]. reflexivity.
Qed.

(** A row of [c] columns: [c] samples, [row_draws c] calls of [rand]. *)
Lemma probe_row_full (c : nat) (w : World E) :
  exists r : list float,
    length r = c
    /\ probe_row c w =
       (Returned r,
        mkWorld (wm w) (advance E (row_draws c) (rng w))
          (trace w ++ repeat RandCall (row_draws c))).
Proof.
  revert w. induction c as [c IH] using (well_founded_induction Wf_nat.lt_wf).
  intros w. destruct c as [|[|c]].
  - exists []. split; [reflexivity|]. simpl. unfold ret.
    rewrite app_nil_r. destruct w; reflexivity.
  - eexists. split; [|simpl; unfold bind; rewrite !draw_uniform_full; simpl;
                      unfold ret; rewrite <- app_assoc; reflexivity].
    reflexivity.
  - destruct (IH c ltac:(lia)
                (mkWorld (wm w) (advance E 2 (rng w))
                   ((trace w ++ [RandCall]) ++ [RandCall])))
      as (rest & Hlen & Hrun).
    eexists. split.
    2:{ simpl. unfold bind. rewrite !draw_uniform_full. simpl.
        simpl in Hrun. rewrite Hrun. unfold ret.
        rewrite <- !app_assoc. reflexivity. }
    simpl. now rewrite Hlen.
Qed.

Lemma probe_rows_full (n c : nat) (w : World E) :
  exists rws : list (list float),
    length rws = n
    /\ Forall (fun r => length r = c) rws
    /\ probe_rows n c w =
       (Returned rws,
        mkWorld (wm w) (advance E (n * row_draws c) (rng w))
          (trace w ++ repeat RandCall (n * row_draws c))).
Proof.
  revert w. induction n as [|n IH]; intros w.
  - exists []. repeat split; [constructor|]. simpl. unfold ret.
    rewrite app_nil_r. destruct w; reflexivity.
  - destruct (probe_row_full c w) as (r & Hr & Hrow).
    destruct (IH (mkWorld (wm w) (advance E (row_draws c) (rng w))
                    (trace w ++ repeat RandCall (row_draws c))))
      as (rws & Hn & Hall & Hrows).
    exists (r :: rws). repeat split.
    + simpl. now rewrite Hn.
    + now constructor.
    + simpl probe_rows. unfold bind. rewrite Hrow. simpl in Hrows.
      rewrite Hrows. unfold ret. simpl Nat.mul.
      now rewrite advance_add, repeat_app, app_assoc.
Qed.

Lemma well_formed_from_rows (n c : nat) (rws : list (list float)) :
  length rws = n -> well_formed (from_rows n c rws).
Proof.
  intros Hn. unfold well_formed, from_rows; simpl.
  apply Forall_forall. intros col0 Hin.
  apply in_map_iff in Hin as (j & <- & _). now rewrite length_map.
Qed.

End Probe.


(* ================================================================== *)
(** * The shape of the basis and of the result *)
(* ================================================================== *)

Section Shapes.

Lemma rows_project_fold (i : nat) (js : list nat) (Y : DenseMatrix) :
  rows (fold_left (project_out i) js Y) = rows Y.
Proof.
  revert Y; induction js as [|j js IH]; intros Y; simpl; [reflexivity|].
  now rewrite IH.
Qed.

Lemma rows_orthonormalize_column (Y : DenseMatrix) (i : nat) :
  rows (orthonormalize_column Y i) = rows Y.
Proof.
  unfold orthonormalize_column, project_all; simpl.
  destruct (_ <? _)%float; simpl; apply rows_project_fold.
Qed.

Lemma rows_orthonormalize_upto (Y : DenseMatrix) (t : nat) :
  rows (orthonormalize_upto Y t) = rows Y.
Proof.
  induction t as [|t IH]; [reflexivity|].
  now rewrite orthonormalize_upto_succ, rows_orthonormalize_column.
Qed.

Lemma col_beyond (Y : DenseMatrix) (k : nat) :
  (cols Y <= k)%nat -> col Y k = [].
Proof. intros H. now apply nth_overflow. Qed.

Lemma well_formed_of_lengths (Y : DenseMatrix) :
  (forall k, (k < cols Y)%nat -> length (col Y k) = rows Y) -> well_formed Y.
Proof.
  intros H. unfold well_formed. apply Forall_forall. intros c Hin.
  destruct (In_nth _ _ [] Hin) as (k & Hk & <-). now apply H.
Qed.

(** A column is final once its turn is over. *)
Lemma col_orthonormalize_upto_final (Y : DenseMatrix) (k t : nat) :
  (k < t)%nat ->
  col (orthonormalize_upto Y t) k = col (orthonormalize_upto Y (S k)) k.
Proof.
  induction t as [|t IH]; intros Hk; [lia|].
  destruct (Nat.eq_dec k t) as [->|Hne]; [reflexivity|].
  rewrite orthonormalize_upto_succ, col_orthonormalize_column_before by lia.
  apply IH; lia.
Qed.

Lemma block_shape (A X : DenseMatrix) (r c br bc : Z) :
  block A r c br bc = Returned X ->
  0 <= r /\ 0 <= c /\ 0 <= br /\ 0 <= bc
  /\ r + br <= Z.of_nat (rows A)
  /\ c + bc <= Z.of_nat (cols A)
  /\ rows X = Z.to_nat br
  /\ cols X = Z.to_nat bc.
Proof.
  unfold block.
  destruct ((0 <=? r) && (0 <=? br) && (r + br <=? Z.of_nat (rows A))
            && (0 <=? c) && (0 <=? bc) && (c + bc <=? Z.of_nat (cols A)))
    eqn:Hrange; [|discriminate].
  intros H; injection H as <-.
  repeat (apply andb_prop in Hrange as [Hrange ?]).
  repeat match goal with
         | H : (_ <=? _) = true |- _ => apply Z.leb_le in H
         end.
  repeat split; try lia; try reflexivity.
  unfold cols; simpl. rewrite length_map.
  apply length_slice. unfold cols, DenseVector in *. lia.
Qed.

Lemma tail_shape (v t : DenseVector) (n : Z) :
  tail v n = Returned t ->
  0 <= n <= Z.of_nat (length v)
  /\ length t = Z.to_nat n
  /\ t = skipn (length v - Z.to_nat n) v.
Proof.
  unfold tail.
  destruct ((0 <=? n) && (n <=? Z.of_nat (length v))) eqn:Hrange;
    [|discriminate].
  intros H; injection H as <-.
  apply andb_prop in Hrange as [H0 H1].
  apply Z.leb_le in H0, H1.
  repeat split; try lia. rewrite length_skipn. lia.
Qed.

End Shapes.

Section RandomizedWhole.

Context {E : Env}.

(** The whole strategy with the probe, the generator and the log made
    explicit. *)
Lemma randomized_embed_full (d s : Z) (w : World E) :
  exists O : DenseMatrix,
    rows O = wm_rows E (wm w)
    /\ cols O = Z.to_nat (uadd d s)
    /\ well_formed O
    /\ randomized_embed d s w =
       (rayleigh_ritz_outcome E (wm w) d s
          (orthonormalize (operation E (wm w) O)),
        mkWorld (wm w)
          (advance E (wm_rows E (wm w) * row_draws (Z.to_nat (uadd d s)))
             (rng w))
          (trace w
           ++ repeat RandCall
                (wm_rows E (wm w) * row_draws (Z.to_nat (uadd d s)))
           ++ randomized_steps)).
Proof.
  destruct (probe_rows_full (wm_rows E (wm w)) (Z.to_nat (uadd d s)) w)
    as (rws & Hn & _ & Hrun).
  exists (from_rows (wm_rows E (wm w)) (Z.to_nat (uadd d s)) rws).
  split; [reflexivity|].
  split; [unfold cols, from_rows; simpl; now rewrite length_map, length_seq|].
  split; [now apply well_formed_from_rows|].
  unfold randomized_embed, generate_probe.
  unfold bind at 1. unfold read_wm at 1.
  unfold bind at 1. unfold bind at 1. rewrite Hrun.
  unfold ret at 1. unfold bind at 1.
  unfold apply_operation, bind, read_wm, emit, ret; simpl.
  rewrite rayleigh_ritz_run; simpl.
  unfold randomized_steps. rewrite <- !app_assoc. reflexivity.
Qed.

End RandomizedWhole.

(** The strategy in terms of the probe it draws. *)
Lemma randomized_embed_by_probe (E : Env) (d s : Z) (w : World E) :
  exists (O : DenseMatrix) (w1 : World E),
    generate_probe (wm_rows E (wm w)) (Z.to_nat (uadd d s)) w =
      (Returned O, w1)
    /\ randomized_embed d s w =
       (rayleigh_ritz_outcome E (wm w) d s
          (orthonormalize (operation E (wm w) O)),
        mkWorld (wm w) (rng w1) (trace w1 ++ randomized_steps)).
Proof.
  destruct (probe_rows_full (wm_rows E (wm w)) (Z.to_nat (uadd d s)) w)
    as (rws & _ & _ & Hrun).
  eexists; eexists. split.
  - unfold generate_probe, bind. rewrite Hrun. reflexivity.
  - unfold randomized_embed, generate_probe.
    unfold bind at 1. unfold read_wm at 1.
    unfold bind at 1. unfold bind at 1. rewrite Hrun.
    unfold ret at 1. unfold bind at 1.
    unfold apply_operation, bind, read_wm, emit, ret; simpl.
    rewrite rayleigh_ritz_run; simpl.
    unfold randomized_steps. rewrite <- !app_assoc. reflexivity.
Qed.

(** X3. What the randomized strategy returns, when it returns, in terms of
    the probe [O] it drew: with [Y] the orthonormalised [operation(O)] and
    [B] the QR solution of [Y * B = operation(Y)], the eigenvalues returned
    are the whole eigenvalue vector the dense solver computed for [B]
    (nothing is cut from it), and the embedding is the block of
    [Y * eigenvectors(B)]. *)
Theorem randomized_embed_values (E : Env) (d s : Z) (w : World E)
    (X : DenseMatrix) (values : DenseVector) :
  fst (randomized_embed d s w) = Returned (X, values) ->
  exists O : DenseMatrix,
    fst (generate_probe (wm_rows E (wm w)) (Z.to_nat (uadd d s)) w) =
      Returned O
    /\ let Y := orthonormalize (operation E (wm w) O) in
       let eigenOfB :=
         self_adjoint_eigen E
           (householder_qr_solve E Y (operation E (wm w) Y)) in
       values = snd eigenOfB
       /\ exists lifted : DenseMatrix,
            mat_mul Y (fst eigenOfB) = Returned lifted
            /\ block lifted 0 s (Z.of_nat (wm_cols E (wm w))) d = Returned X.
Proof.
  destruct (randomized_embed_by_probe E d s w) as (O & w1 & Hprobe & ->).
  simpl. unfold rayleigh_ritz_outcome.
  destruct (mat_mul _ _) as [lifted|] eqn:Hmul; [|discriminate].
  destruct (block _ _ _ _ _) as [X'|] eqn:Hblock; [|discriminate].
  intros H; injection H as <- <-.
  exists O. split; [now rewrite Hprobe|].
  cbv zeta. split; [reflexivity|].
  exists lifted. now split.
Qed.

(** The randomized strategy on [diag(1,2)] with [target_dimension = 1] and
    [skip = 1]. *)
Lemma randomized_embed_values_witness :
  let E := Bench.env false in
  let w := Bench.world false [1; 2]%float in
  let X := mkDense 2 [[0x1.1a62633145c07p-53; 1]]%float in
  exists O : DenseMatrix,
    fst (generate_probe 2 2 w) = Returned O
    /\ let Y := orthonormalize (operation E (wm w) O) in
       let eigenOfB :=
         self_adjoint_eigen E
           (householder_qr_solve E Y (operation E (wm w) Y)) in
       [1; 2]%float = snd eigenOfB
       /\ exists lifted : DenseMatrix,
            mat_mul Y (fst eigenOfB) = Returned lifted
            /\ block lifted 0 1 (Z.of_nat (wm_cols E (wm w))) 1 = Returned X.
Proof.
  intros E w X.
  apply (randomized_embed_values (Bench.env false) 1 1 w X [1; 2]%float).
  vm_compute. reflexivity.
Defined.

(** X6. Only the randomized strategy takes random numbers.  The ARPACK
    strategy (compiled in or not) and the dense strategy leave the
    process-wide generator in the state they found it in, however they
    end.  The randomized strategy, however it ends, leaves it advanced by
    exactly [wm.rows() * 2 * ceil(m/2)] calls of [rand], where [m] is
    [target_dimension + skip] as an [unsigned int]. *)
Theorem only_randomized_draws (E : Env) (d s : Z) (w : World E) :
  rng (snd (arpack_embed d s w)) = rng w
  /\ rng (snd (dense_embed d s w)) = rng w
  /\ rng (snd (randomized_embed d s w)) =
     advance E
       (wm_rows E (wm w) * (2 * Nat.div2 (S (Z.to_nat (uadd d s)))))
       (rng w).
Proof.
  split; [|split].
  - destruct (TAPKEE_NO_ARPACK E) eqn:Hflag.
    + unfold arpack_embed. rewrite Hflag. reflexivity.
    + rewrite arpack_embed_run by assumption; simpl.
      destruct (block _ _ _ _ _); [|reflexivity].
      destruct (tail _ _); reflexivity.
  - rewrite dense_embed_run; simpl.
    destruct (block _ _ _ _ _); [|reflexivity].
    destruct (tail _ _); reflexivity.
  - destruct (randomized_embed_full d s w) as (O & _ & _ & _ & ->).
    simpl. now rewrite row_draws_closed.
Qed.

Section RandomizedShape.

Context {E : Env}.


Lemma uadd_wrapped (d s : Z) :
  is_uint d -> is_uint s -> UINT_MODULUS <= d + s ->
  uadd d s = d + s - UINT_MODULUS.
Proof.
  unfold is_uint, uadd, UINT_MODULUS. intros Hd Hs Hsum.
  symmetry. apply (Z.mod_unique _ _ 1); lia.
Qed.



End RandomizedShape.




(** X8. Whenever the ARPACK strategy (compiled in) or the dense strategy
    returns, whatever its solver answered, [target_dimension] and [skip]
    were in range and the result has [wm.cols()] rows, exactly
    [target_dimension] columns and exactly [target_dimension]
    eigenvalues. *)
Theorem sliced_strategies_shape (E : Env) (d s : Z) (w : World E)
    (X : DenseMatrix) (values : DenseVector) :
  (TAPKEE_NO_ARPACK E = false
   /\ fst (arpack_embed d s w) = Returned (X, values))
  \/ fst (dense_embed d s w) = Returned (X, values) ->
  0 <= d /\ 0 <= s
  /\ rows X = wm_cols E (wm w)
  /\ cols X = Z.to_nat d
  /\ length values = Z.to_nat d.
Proof.
  intros [[Hflag Hrun] | Hrun].
  - rewrite arpack_embed_run in Hrun by assumption. simpl in Hrun.
    destruct (block _ _ _ _ _) as [X'|] eqn:Hb; [|discriminate].
    destruct (tail _ _) as [v'|] eqn:Ht; [|discriminate].
    simpl in Hrun. injection Hrun as <- <-.
    apply block_shape in Hb as (_ & Hs & _ & Hd & _ & _ & Hr & Hc).
    apply tail_shape in Ht as (_ & Hl & _).
    rewrite Nat2Z.id in Hr. repeat split; assumption.
  - rewrite dense_embed_run in Hrun. simpl in Hrun.
    destruct (block _ _ _ _ _) as [X'|] eqn:Hb; [|discriminate].
    destruct (tail _ _) as [v'|] eqn:Ht; [|discriminate].
    simpl in Hrun. injection Hrun as <- <-.
    apply block_shape in Hb as (_ & Hs & _ & Hd & _ & _ & Hr & Hc).
    apply tail_shape in Ht as (_ & Hl & _).
    rewrite Nat2Z.id in Hr. repeat split; assumption.
Qed.

(** The dense strategy on [diag(1,2,3)], two eigenpairs after one skipped. *)
Lemma sliced_strategies_shape_witness :
  let w := Bench.world false [1; 2; 3]%float in
  fst (dense_embed 2 1 w) =
    Returned (mkDense 3 [[0; 1; 0]; [0; 0; 1]], [2; 3])%float
  /\ 0 <= 2 /\ 0 <= 1
  /\ rows (mkDense 3 [[0; 1; 0]; [0; 0; 1]]%float) = 3%nat
  /\ cols (mkDense 3 [[0; 1; 0]; [0; 0; 1]]%float) = 2%nat
  /\ length [2; 3]%float = 2%nat.
Proof.
  intros w.
  assert (Hrun : fst (dense_embed 2 1 w) =
                 Returned (mkDense 3 [[0; 1; 0]; [0; 0; 1]], [2; 3])%float)
    by (vm_compute; reflexivity).
  split; [exact Hrun|].
  exact (sliced_strategies_shape (Bench.env false) 2 1 w _ _ (or_intror Hrun)).
Defined.

(** X9. When [target_dimension + skip] is the dimension [n] of the matrix
    and the dense solver answers [n] eigenpairs, the dense strategy returns,
    and its result is index-aligned: the eigenvalue at index [k] is entry
    [skip + k] of the spectrum and the eigenvector at index [k] is column
    [skip + k] of the solver's eigenvectors. *)
Theorem dense_embed_aligned_at_top (E : Env) (d s : Z) (w : World E)
    (V : DenseMatrix) (lambda : DenseVector) :
  0 <= d -> 0 <= s ->
  self_adjoint_eigen E (to_dense E (wm w)) = (V, lambda) ->
  (wm_cols E (wm w) <= rows V)%nat ->
  length lambda = cols V ->
  d + s = Z.of_nat (cols V) ->
  exists (X : DenseMatrix) (values : DenseVector),
    fst (dense_embed d s w) = Returned (X, values)
    /\ forall k : nat, (k < Z.to_nat d)%nat ->
         nth k values 0%float = nth (Z.to_nat s + k) lambda 0%float
         /\ col X k = firstn (wm_cols E (wm w)) (col V (Z.to_nat s + k)).
Proof.
  intros Hd Hs Hsolve Hrows Hl Hsum.
  rewrite dense_embed_run, Hsolve; simpl.
  rewrite block_in_range by lia.
  rewrite (tail_in_range lambda s d) by lia.
  eexists; eexists; split; [reflexivity|].
  intros k Hk. split.
  - apply nth_skipn_shift.
  - unfold col at 1; simpl. apply column_slice_nth; [assumption|lia].
Qed.

(** The dense strategy on [diag(1,2,3)] with [target_dimension = 2] and
    [skip = 1]. *)
Lemma dense_embed_aligned_at_top_witness :
  let w := Bench.world false [1; 2; 3]%float in
  exists (X : DenseMatrix) (values : DenseVector),
    fst (dense_embed 2 1 w) = Returned (X, values)
    /\ forall k : nat, (k < 2)%nat ->
         nth k values 0%float = nth (1 + k) [1; 2; 3]%float 0%float
         /\ col X k = firstn 3 (col (Bench.identity 3) (1 + k)).
Proof.
  intros w.
  apply (dense_embed_aligned_at_top (Bench.env false) 2 1 w
           (Bench.identity 3) [1; 2; 3]%float);
    solve [ reflexivity | lia | cbn; lia ].
Defined.

(** X10. When [target_dimension + skip] overflows [unsigned int], the
    ARPACK solver is asked for [target_dimension + skip - 2^32] eigenpairs
    only; once it has answered that many columns, the range assertion of
    [block] stops the call. *)
Theorem arpack_embed_wraps (E : Env) (d s : Z) (w : World E) :
  TAPKEE_NO_ARPACK E = false ->
  is_uint d -> is_uint s -> UINT_MODULUS <= d + s ->
  cols (fst (arpack_solver E (wm w) (d + s - UINT_MODULUS))) =
    Z.to_nat (d + s - UINT_MODULUS) ->
  uadd d s = d + s - UINT_MODULUS
  /\ arpack_embed d s w = (AssertFailed, logged w ArpackSolve).
Proof.
  intros Hflag Hd Hs Hsum Hcols.
  assert (Hu : uadd d s = d + s - UINT_MODULUS) by now apply uadd_wrapped.
  split; [exact Hu|].
  rewrite arpack_embed_run by assumption. rewrite Hu. simpl.
  unfold block. rewrite Hcols.
  replace (s + d <=? Z.of_nat (Z.to_nat (d + s - UINT_MODULUS))) with false.
  - rewrite andb_false_r. reflexivity.
  - symmetry. apply Z.leb_gt. unfold is_uint, UINT_MODULUS in *. lia.
Qed.

(** [target_dimension = 2^32 - 1] and [skip = 2] on [diag(1,2,3,4)]: the
    solver is asked for one eigenpair. *)
Lemma arpack_embed_wraps_witness :
  let w := Bench.world false [1; 2; 3; 4]%float in
  uadd (2 ^ 32 - 1) 2 = 1
  /\ arpack_embed (2 ^ 32 - 1) 2 w = (AssertFailed, logged w ArpackSolve).
Proof.
  intros w.
  apply (arpack_embed_wraps (Bench.env false) (2 ^ 32 - 1) 2 w).
  - reflexivity.
  - unfold is_uint, UINT_MODULUS; lia.
  - unfold is_uint, UINT_MODULUS; lia.
  - unfold UINT_MODULUS; lia.
  - vm_compute; reflexivity.
Defined.



(* ================================================================== *)
(** * The pass as a whole *)
(* ================================================================== *)

Section WholePass.

Local Open Scope float_scope.

Lemma length_col_orthonormalize (Y : DenseMatrix) (k : nat) :
  length (col (orthonormalize Y) k) = length (col Y k).
Proof.
  change (orthonormalize Y) with (orthonormalize_upto Y (cols Y)).
  apply length_col_orthonormalize_upto. lia.
Qed.

(** A turn that is not rank-deficient leaves the columns after it alone. *)
Lemma col_orthonormalize_upto_untouched (Y : DenseMatrix) (k t : nat) :
  (t <= k)%nat ->
  (forall i, (i < t)%nat ->
     (residual_norm (orthonormalize_upto Y i) i <? TOLERANCE) = false) ->
  col (orthonormalize_upto Y t) k = col Y k.
Proof.
  induction t as [|t IH]; intros Ht Hfull; [reflexivity|].
  rewrite orthonormalize_upto_succ, col_orthonormalize_column_after by lia.
  rewrite Hfull by lia. apply IH; [lia|]. intros i Hi. apply Hfull; lia.
Qed.

Lemma in_nan_vsub_scaled (u : DenseVector) (r : float) (v : DenseVector) :
  In nan u -> In nan (vsub_scaled u r v).
Proof.
  revert v; induction u as [|x u IH]; intros v Hin; [destruct Hin|].
  destruct v as [|y v]; [exact Hin|]. simpl.
  destruct Hin as [->|Hin].
  - left. apply sub_nan_l.
  - right. now apply IH.
Qed.

Lemma in_nan_project_fold (i : nat) (js : list nat) (Y : DenseMatrix) :
  (i < cols Y)%nat -> In nan (col Y i) ->
  In nan (col (fold_left (project_out i) js Y) i).
Proof.
  revert Y; induction js as [|j js IH]; intros Y Hi Hin; simpl;
    [assumption|].
  apply IH.
  - now rewrite cols_project_out.
  - rewrite col_project_out_same by assumption.
    now apply in_nan_vsub_scaled.
Qed.

Lemma fold_add_has_nan (l : DenseVector) (acc : float) :
  In nan l -> fold_left PrimFloat.add l acc = nan.
Proof.
  revert acc; induction l as [|x l IH]; intros acc Hin; [destruct Hin|].
  simpl. destruct Hin as [->|Hin].
  - rewrite add_nan_r. apply fold_add_nan.
  - now apply IH.
Qed.

Lemma norm_has_nan (u : DenseVector) : In nan u -> norm u = nan.
Proof.
  intros Hin. unfold norm, dot.
  assert (Hsq : In nan (vmul u u)).
  { induction u as [|x u IH]; [destruct Hin|]. simpl.
    destruct Hin as [->|Hin]; [left; apply mul_nan_l|right; now apply IH]. }
  destruct (vmul u u) as [|p ps]; [destruct Hsq|]. simpl.
  destruct Hsq as [->|Hps]; [rewrite fold_add_nan|rewrite fold_add_has_nan];
    auto.
Qed.

Lemma all_nan_vscale_nan (u : DenseVector) : all_nan (vscale nan u).
Proof.
  unfold all_nan, vscale. apply Forall_forall. intros x Hx.
  apply in_map_iff in Hx as (y & <- & _). apply mul_nan_r.
Qed.

(** A column that holds a NaN when its turn comes is all NaN after it. *)
Lemma nan_entry_gives_nan (Y : DenseMatrix) (i : nat) :
  (i < cols Y)%nat -> In nan (col Y i) ->
  all_nan (col (orthonormalize_column Y i) i).
Proof.
  intros Hi Hin. rewrite col_orthonormalize_column_same by assumption.
  assert (Hr : residual_norm Y i = nan).
  { unfold residual_norm, project_all. apply norm_has_nan.
    now apply in_nan_project_fold. }
  rewrite Hr, nan_not_below_tolerance, one_over_nan.
  apply all_nan_vscale_nan.
Qed.

End WholePass.

(** X12. The orthonormalisation pass keeps the shape of [Y]: the same
    number of rows and of columns, every column as long as it was, and a
    matrix whose columns all have [rows] coefficients stays so. *)
Theorem orthonormalize_keeps_shape (Y : DenseMatrix) :
  rows (orthonormalize Y) = rows Y
  /\ cols (orthonormalize Y) = cols Y
  /\ (forall k, length (col (orthonormalize Y) k) = length (col Y k))
  /\ (well_formed Y -> well_formed (orthonormalize Y)).
Proof.
  assert (Hr : rows (orthonormalize Y) = rows Y)
    by apply rows_orthonormalize_upto.
  assert (Hc : cols (orthonormalize Y) = cols Y)
    by apply cols_orthonormalize_upto.
  repeat split; try assumption.
  - apply length_col_orthonormalize.
  - intros Hwf. apply well_formed_of_lengths. intros k Hk.
    rewrite length_col_orthonormalize, Hr.
    apply well_formed_length; [assumption|lia].
Qed.

(** X13. In the pass, column [k] is written for the last time in its own
    turn: at the end it is what turn [k] made of it.  And when none of the
    columns before [k] is rank-deficient (no residual norm below the
    tolerance), column [k] enters its turn as the operation delivered
    it. *)
Theorem column_final_after_its_turn (Y : DenseMatrix) (k : nat) :
  (k < cols Y)%nat ->
  col (orthonormalize Y) k =
    col (orthonormalize_column (orthonormalize_upto Y k) k) k
  /\ ((forall i, (i < k)%nat ->
         (residual_norm (orthonormalize_upto Y i) i <? TOLERANCE)%float
         = false) ->
      col (orthonormalize_upto Y k) k = col Y k).
Proof.
  intros Hk. split.
  - change (orthonormalize Y) with (orthonormalize_upto Y (cols Y)).
    rewrite col_orthonormalize_upto_final by assumption.
    now rewrite orthonormalize_upto_succ.
  - intros Hfull. now apply col_orthonormalize_upto_untouched.
Qed.

(** Two orthogonal columns of a 2 x 2 matrix. *)
Lemma column_final_after_its_turn_witness :
  let Y := mkDense 2 [[3; 4]; [4; -3]]%float in
  col (orthonormalize Y) 1 =
    col (orthonormalize_column (orthonormalize_upto Y 1) 1) 1
  /\ col (orthonormalize_upto Y 1) 1 = [4; -3]%float.
Proof.
  intros Y.
  assert (Hk : (1 < cols Y)%nat) by (vm_compute; lia).
  destruct (column_final_after_its_turn Y 1 Hk) as [Hfinal Hin].
  split; [exact Hfinal|].
  apply Hin. intros i Hi.
  replace i with 0%nat by lia. vm_compute. reflexivity.
Defined.

(** X14. Let the residual norm of column [i] be below the tolerance but
    with a finite reciprocal, the columns before it being finite.  Then at
    the end of the pass column [i] is zero and every column after it holds
    NaN in every entry. *)
Theorem small_norm_leaves_zero_then_nan (Y : DenseMatrix) (i : nat) :
  well_formed Y -> (1 <= rows Y)%nat ->
  (i < cols Y)%nat ->
  (residual_norm (orthonormalize_upto Y i) i <? TOLERANCE)%float = true ->
  finite_coeff (1 / residual_norm (orthonormalize_upto Y i) i)%float = true ->
  (forall j, (j < i)%nat -> all_finite (col (orthonormalize_upto Y i) j)) ->
  all_zero (col (orthonormalize Y) i)
  /\ forall k, (i < k < cols Y)%nat -> all_nan (col (orthonormalize Y) k).
Proof.
  intros Hwf Hrows Hi Hsmall Hrec Hfin.
  change (orthonormalize Y) with (orthonormalize_upto Y (cols Y)).
  destruct (Nat.eq_dec (S i) (cols Y)) as [Hlast|Hmore].
  - split; [|intros k Hk; lia].
    rewrite <- Hlast, orthonormalize_upto_succ.
    rewrite col_orthonormalize_column_same
      by (rewrite cols_orthonormalize_upto; lia).
    rewrite Hsmall. unfold all_zero, vscale, vzero. rewrite map_map.
    apply Forall_forall. intros x Hx.
    apply in_map_iff in Hx as (y & <- & _).
    now apply zero_mul_finite.
  - destruct (successor_of_zeroed_column (orthonormalize_upto Y i) i)
      as (Hz & _ & Hnan); try assumption.
    { rewrite cols_orthonormalize_upto; lia. }
    rewrite <- !orthonormalize_upto_succ in *.
    split.
    + rewrite col_orthonormalize_upto_final by lia. exact Hz.
    + intros k Hk.
      apply (nan_spreads Y (S i) (cols Y)); try assumption; lia.
Qed.

(** A first column of norm [2^-20]. *)
Lemma small_norm_leaves_zero_then_nan_witness :
  let Y := mkDense 3 [[0x1p-20; 0; 0]; [1; 2; 3]; [4; 5; 6]]%float in
  all_zero (col (orthonormalize Y) 0)
  /\ all_nan (col (orthonormalize Y) 1)
  /\ all_nan (col (orthonormalize Y) 2).
Proof.
  intros Y.
  destruct (small_norm_leaves_zero_then_nan Y 0) as [Hz Hnan].
  - repeat constructor.
  - simpl; lia.
  - vm_compute; lia.
  - vm_compute; reflexivity.
  - vm_compute; reflexivity.
  - intros j Hj; lia.
  - split; [exact Hz|]. split; apply Hnan; vm_compute; lia.
Defined.

(** X15. If column [i] holds a NaN when its turn comes (for [i = 0]: if
    the first column the operation delivered holds a NaN), then at the end
    of the pass column [i] and every column after it hold NaN in every
    entry. *)
Theorem nan_entry_poisons (Y : DenseMatrix) (i : nat) :
  well_formed Y ->
  (i < cols Y)%nat ->
  In nan (col (orthonormalize_upto Y i) i) ->
  forall k, (i <= k < cols Y)%nat -> all_nan (col (orthonormalize Y) k).
Proof.
  intros Hwf Hi Hin k Hk.
  assert (Hrows : (1 <= rows Y)%nat).
  { rewrite <- (well_formed_length Y i Hwf Hi).
    rewrite <- (length_col_orthonormalize_upto Y i i) by lia.
    destruct (col (orthonormalize_upto Y i) i); [destruct Hin|simpl; lia]. }
  change (orthonormalize Y) with (orthonormalize_upto Y (cols Y)).
  apply (nan_spreads Y i (cols Y)); try assumption; try lia.
  rewrite orthonormalize_upto_succ.
  apply nan_entry_gives_nan; [|assumption].
  rewrite cols_orthonormalize_upto; lia.
Qed.

(** One NaN in the first of two orthogonal columns. *)
Lemma nan_entry_poisons_witness :
  let Y := mkDense 2 [[3; nan]; [4; -3]]%float in
  all_nan (col (orthonormalize Y) 0) /\ all_nan (col (orthonormalize Y) 1).
Proof.
  intros Y.
  assert (Hwf : well_formed Y) by (repeat constructor).
  assert (Hi : (0 < cols Y)%nat) by (vm_compute; lia).
  assert (Hin : In nan (col (orthonormalize_upto Y 0) 0))
    by (right; left; reflexivity).
  split; apply (nan_entry_poisons Y 0 Hwf Hi Hin); vm_compute; lia.
Defined.

(* ================================================================== *)
(** * The numerator of the uniform variate *)
(* ================================================================== *)

Section Binary32.

Lemma binary32_round_small (z : Z) :
  0 <= z < 2 ^ 24 -> binary32_round z = z.
Proof.
  intros Hz. unfold binary32_round.
  assert (Hl : Z.log2 z < 24).
  { destruct (Z.eq_dec z 0) as [->|Hne]; [reflexivity|].
    apply Z.log2_lt_pow2; lia. }
  replace (Z.log2 z - 23 <=? 0) with true
    by (symmetry; apply Z.leb_le; lia).
  reflexivity.
Qed.

(** In a binade above [2^24] the rounding picks one of the two
    neighbours on the grid of step [2^e]. *)
Lemma binary32_round_grid (z l : Z) :
  24 <= l -> 2 ^ l <= z < 2 ^ (l + 1) ->
  let p := 2 ^ (l - 23) in
  let q := z / p in
  (binary32_round z = q * p \/ binary32_round z = (q + 1) * p)
  /\ (z mod p < p / 2 -> binary32_round z = q * p)
  /\ (p / 2 < z mod p -> binary32_round z = (q + 1) * p)
  /\ (z mod p = p / 2 -> Z.odd q = true -> binary32_round z = (q + 1) * p).
Proof.
  intros Hl Hz p q.
  assert (Hlog : Z.log2 z = l) by (apply Z.log2_unique; lia).
  assert (Hp : 0 < p) by (apply Z.pow_pos_nonneg; lia).
  assert (Hhalf : Z.shiftl 1 (l - 23 - 1) = p / 2).
  { rewrite Z.shiftl_mul_pow2 by lia. unfold p.
    replace (l - 23) with (l - 23 - 1 + 1) at 2 by lia.
    rewrite Z.pow_add_r by lia. change (2 ^ 1) with 2.
    rewrite Z.div_mul by lia. lia. }
  assert (Hrest : z - Z.shiftl (Z.shiftr z (l - 23)) (l - 23) = z mod p).
  { rewrite Z.shiftr_div_pow2, Z.shiftl_mul_pow2 by lia. fold p.
    rewrite (Z.div_mod z p) at 1 by lia. lia. }
  unfold binary32_round. rewrite Hlog.
  replace (l - 23 <=? 0) with false by (symmetry; apply Z.leb_gt; lia).
  cbv zeta. rewrite Hrest, Hhalf.
  rewrite Z.shiftr_div_pow2 by lia. fold p. fold q.
  rewrite !Z.shiftl_mul_pow2 by lia. fold p.
  repeat split.
  - destruct (z mod p <? p / 2); [now left|].
    destruct (p / 2 <? z mod p); [now right|].
    destruct (Z.even q); [now left|now right].
  - intros H. apply Z.ltb_lt in H. now rewrite H.
  - intros H.
    replace (z mod p <? p / 2) with false by (symmetry; apply Z.ltb_ge; lia).
    apply Z.ltb_lt in H. now rewrite H.
  - intros H Hodd. rewrite H, Z.ltb_irrefl.
    rewrite <- Z.negb_odd, Hodd. reflexivity.
Qed.

Lemma binary32_round_bounds (z : Z) :
  1 <= z -> 1 <= binary32_round z <= 2 ^ (Z.log2 z + 1).
Proof.
  intros Hz.
  assert (Hspec := Z.log2_spec z ltac:(lia)).
  destruct (Z_lt_le_dec z (2 ^ 24)) as [Hsmall|Hbig].
  - rewrite binary32_round_small by lia. lia.
  - assert (Hl : 24 <= Z.log2 z).
    { apply Z.log2_le_pow2; lia. }
    destruct (binary32_round_grid z (Z.log2 z) Hl ltac:(lia)) as (Hgrid & _).
    set (p := 2 ^ (Z.log2 z - 23)) in *.
    assert (Hp : 0 < p) by (apply Z.pow_pos_nonneg; lia).
    assert (Hpow : 2 ^ (Z.log2 z + 1) = 2 ^ 24 * p).
    { unfold p. rewrite <- Z.pow_add_r by lia. f_equal. lia. }
    assert (Hpow' : 2 ^ Z.log2 z = 2 ^ 23 * p).
    { unfold p. rewrite <- Z.pow_add_r by lia. f_equal. lia. }
    assert (Hq : 2 ^ 23 <= z / p < 2 ^ 24).
    { split.
      - apply Z.div_le_lower_bound; lia.
      - apply Z.div_lt_upper_bound; lia. }
    rewrite Hpow. destruct Hgrid as [-> | ->]; nia.
Qed.

Lemma binary32_round_below_top (z : Z) :
  0 <= z <= 2 ^ 31 - 65 -> binary32_round z <= 2 ^ 31 - 128.
Proof.
  intros Hz.
  destruct (Z_lt_le_dec z (2 ^ 30)) as [Hlow|Hhigh].
  - destruct (Z.eq_dec z 0) as [->|Hne]; [vm_compute; discriminate|].
    assert (Hl : Z.log2 z < 30) by (apply Z.log2_lt_pow2; lia).
    destruct (binary32_round_bounds z ltac:(lia)) as [_ Hub].
    assert (2 ^ (Z.log2 z + 1) <= 2 ^ 30)
      by (apply Z.pow_le_mono_r; lia).
    lia.
  - destruct (binary32_round_grid z 30 ltac:(lia) ltac:(lia))
      as (Hgrid & Hdown & _).
    change (2 ^ (30 - 23)) with 128 in *. change (128 / 2) with 64 in *.
    assert (Hq : z / 128 <= 2 ^ 24 - 1)
      by (apply Z.lt_succ_r, Z.div_lt_upper_bound; lia).
    destruct (Z.eq_dec (z / 128) (2 ^ 24 - 1)) as [Htop|Hbelow].
    + assert (Hmod : z mod 128 < 64).
      { rewrite Z.mod_eq by lia. rewrite Htop. lia. }
      rewrite (Hdown Hmod), Htop. lia.
    + destruct Hgrid as [-> | ->]; lia.
Qed.

Lemma binary32_round_top (r : Z) :
  2 ^ 31 - 64 <= r <= 2 ^ 31 - 1 -> binary32_round r = 2 ^ 31.
Proof.
  intros Hr.
  destruct (binary32_round_grid r 30 ltac:(lia) ltac:(lia))
    as (_ & _ & Hup & Htie).
  change (2 ^ (30 - 23)) with 128 in *. change (128 / 2) with 64 in *.
  assert (Hq : r / 128 = 2 ^ 24 - 1).
  { symmetry. apply (Z.div_unique r 128 _ (r - (2 ^ 24 - 1) * 128)); lia. }
  assert (Hm : r mod 128 = r - (2 ^ 24 - 1) * 128).
  { rewrite Z.mod_eq by lia. rewrite Hq. lia. }
  destruct (Z.eq_dec (r mod 128) 64) as [Heq|Hne].
  - rewrite (Htie Heq); rewrite Hq; reflexivity.
  - rewrite Hup by lia. rewrite Hq. reflexivity.
Qed.

End Binary32.

(** X16. Where [RAND_MAX] is [2^31 - 1], for every [r] that [rand] can
    return the variate is the binary64 quotient of the binary32 value of
    [r+1.f] by [2^31], the binary32 value of [(float)RAND_MAX+2.f].  That
    numerator is an integer between 1 and [2^31]: never 0, never more than
    the denominator.  It is the denominator itself exactly for the 64
    largest values, [r >= 2^31 - 64]. *)
Theorem variate_numerator_bounds (r : Z) :
  0 <= r <= 2 ^ 31 - 1 ->
  uniform_variate (2 ^ 31 - 1) r =
    (double_of_Z (variate_numerator r) / double_of_Z (2 ^ 31))%float
  /\ variate_denominator (2 ^ 31 - 1) = 2 ^ 31
  /\ 1 <= variate_numerator r <= 2 ^ 31
  /\ (variate_numerator r = 2 ^ 31 <-> 2 ^ 31 - 64 <= r).
Proof.
  intros Hr.
  assert (Hden : variate_denominator (2 ^ 31 - 1) = 2 ^ 31)
    by (vm_compute; reflexivity).
  split.
  { unfold uniform_variate. fold (variate_numerator r).
    fold (variate_denominator (2 ^ 31 - 1)). now rewrite Hden. }
  split; [exact Hden|].
  unfold variate_numerator.
  destruct (Z_lt_le_dec r (2 ^ 31 - 64)) as [Hlow|Hhigh].
  - assert (H1 : binary32_round r <= 2 ^ 31 - 128)
      by (apply binary32_round_below_top; lia).
    assert (H0 : 0 <= binary32_round r).
    { destruct (Z.eq_dec r 0) as [->|Hne]; [vm_compute; discriminate|].
      destruct (binary32_round_bounds r ltac:(lia)). lia. }
    assert (H2 : binary32_round (binary32_round r + 1) <= 2 ^ 31 - 128)
      by (apply binary32_round_below_top; lia).
    destruct (binary32_round_bounds (binary32_round r + 1) ltac:(lia))
      as [H3 _].
    split; [lia|]. split; intros; lia.
  - rewrite (binary32_round_top r) by lia.
    replace (binary32_round (2 ^ 31 + 1)) with (2 ^ 31)
      by (vm_compute; reflexivity).
    split; [lia|]. split; intros; lia.
Qed.

(** The smallest draw, the last one below 1, the first one at 1. *)
Lemma variate_numerator_bounds_witness :
  variate_numerator 0 = 1
  /\ (1 <= variate_numerator (2 ^ 31 - 65) <= 2 ^ 31
      /\ (variate_numerator (2 ^ 31 - 65) = 2 ^ 31 <->
          2 ^ 31 - 64 <= 2 ^ 31 - 65))
  /\ (variate_numerator (2 ^ 31 - 64) = 2 ^ 31 <->
      2 ^ 31 - 64 <= 2 ^ 31 - 64).
Proof.
  split; [reflexivity|]. split.
  - apply (variate_numerator_bounds (2 ^ 31 - 65)). lia.
  - apply (variate_numerator_bounds (2 ^ 31 - 64)). lia.
Defined.

(* ================================================================== *)
(** * Which draws make which entry of the probe *)
(* ================================================================== *)

Section ProbeEntries.

Context {E : Env}.

Lemma row_sample_shift (g : RandState E) (j : nat) :
  row_sample E g (S (S j)) = row_sample E (advance E 2 g) j.
Proof.
  unfold row_sample, nth_variate.
  change (Nat.even (S (S j))) with (Nat.even j).
  change (Nat.div2 (S (S j))) with (S (Nat.div2 j)).
  replace (2 * S (Nat.div2 j))%nat with (2 + 2 * Nat.div2 j)%nat by lia.
  replace (S (2 + 2 * Nat.div2 j))%nat with (2 + S (2 * Nat.div2 j))%nat
    by lia.
  now rewrite !advance_add.
Qed.

Lemma probe_row_samples (c : nat) (w : World E) :
  exists r : list float,
    fst (probe_row c w) = Returned r
    /\ forall j, (j < c)%nat -> nth j r 0%float = row_sample E (rng w) j.
Proof.
  revert w. induction c as [c IH] using (well_founded_induction Wf_nat.lt_wf).
  intros w. destruct c as [|[|c]].
  - exists []. split; [reflexivity|]. intros j Hj; lia.
  - eexists. split.
    + simpl. unfold bind. rewrite !draw_uniform_full. reflexivity.
    + intros j Hj. replace j with 0%nat by lia. reflexivity.
  - destruct (IH c ltac:(lia)
                (mkWorld (wm w) (advance E 2 (rng w))
                   ((trace w ++ [RandCall]) ++ [RandCall])))
      as (rest & Hrun & Hrest).
    destruct (probe_row_full c
                (mkWorld (wm w) (advance E 2 (rng w))
                   ((trace w ++ [RandCall]) ++ [RandCall])))
      as (rest' & _ & Hfull).
    rewrite Hfull in Hrun. simpl in Hrun. injection Hrun as ->.
    eexists. split.
    + simpl. unfold bind. rewrite !draw_uniform_full. simpl.
      simpl in Hfull. rewrite Hfull. reflexivity.
    + intros j Hj. destruct j as [|[|j]]; try reflexivity.
      rewrite row_sample_shift. simpl nth. apply Hrest. lia.
Qed.

Lemma probe_rows_samples (n c : nat) (w : World E) :
  exists rws : list (list float),
    fst (probe_rows n c w) = Returned rws
    /\ forall i j, (i < n)%nat -> (j < c)%nat ->
         nth j (nth i rws []) 0%float =
         row_sample E (advance E (i * row_draws c) (rng w)) j.
Proof.
  revert w. induction n as [|n IH]; intros w.
  - exists []. split; [reflexivity|]. intros i j Hi; lia.
  - destruct (probe_row_samples c w) as (r & Hr & Hsamples).
    destruct (probe_row_full c w) as (r' & _ & Hrow).
    rewrite Hrow in Hr. simpl in Hr. injection Hr as ->.
    destruct (IH (mkWorld (wm w) (advance E (row_draws c) (rng w))
                    (trace w ++ repeat RandCall (row_draws c))))
      as (rws & Hrws & Hrest).
    destruct (probe_rows_full n c
                (mkWorld (wm w) (advance E (row_draws c) (rng w))
                   (trace w ++ repeat RandCall (row_draws c))))
      as (rws' & _ & _ & Hfull).
    rewrite Hfull in Hrws. simpl in Hrws. injection Hrws as ->.
    exists (r :: rws). split.
    + simpl probe_rows. unfold bind. rewrite Hrow. rewrite Hfull.
      reflexivity.
    + intros i j Hi Hj. destruct i as [|i]; simpl nth.
      * now apply Hsamples.
      * rewrite Hrest by lia. simpl rng.
        now rewrite <- advance_add.
Qed.

End ProbeEntries.

(** X17. Which calls of [rand] make which entry of the probe.  A row takes
    [D = 2 * ceil(c/2)] calls.  Entry [(i, j)] of the probe is made of two
    variates only: those of the calls number [i*D + 2*floor(j/2)] and the
    next one, in this order [v1], [v2]; it is their cosine sample
    [sqrt(-2 log v1) * cos(2 pi v2)] when [j] is even and their sine sample
    when [j] is odd.  So two neighbouring columns share one pair of
    variates, and an odd last column has a pair of its own. *)
Theorem probe_entry (E : Env) (n c : nat) (w : World E) (O : DenseMatrix)
    (i j : nat) :
  fst (generate_probe n c w) = Returned O ->
  (i < n)%nat -> (j < c)%nat ->
  nth i (col O j) 0%float =
  row_sample E (advance E (i * (2 * Nat.div2 (S c))) (rng w)) j.
Proof.
  intros Hrun Hi Hj.
  destruct (probe_rows_samples n c w) as (rws & Hrws & Hsamples).
  destruct (probe_rows_full n c w) as (rws' & Hlen & _ & Hfull).
  rewrite Hfull in Hrws. simpl in Hrws. injection Hrws as ->.
  unfold generate_probe, bind in Hrun. rewrite Hfull in Hrun.
  simpl in Hrun. injection Hrun as <-.
  rewrite <- row_draws_closed, <- (Hsamples i j Hi Hj).
  unfold col, from_rows; simpl.
  rewrite (nth_indep _ [] (map (fun r => nth 0 r 0%float) rws))
    by now rewrite length_map, length_seq.
  rewrite (map_nth (fun j0 => map (fun r => nth j0 r 0%float) rws)).
  rewrite seq_nth by assumption. simpl.
  rewrite (nth_indep _ 0%float (nth j [] 0%float))
    by (rewrite length_map; lia).
  now rewrite (map_nth (fun r => nth j r 0%float)).
Qed.

(** The 2 x 3 probe of the bench: the entry of the second row in the odd
    last column. *)
Lemma probe_entry_witness :
  let w := Bench.world false [1; 2]%float in
  exists O : DenseMatrix,
    fst (generate_probe 2 3 w) = Returned O
    /\ nth 1 (col O 2) 0%float =
       row_sample (Bench.env false) (advance (Bench.env false) 4 (rng w)) 2.
Proof.
  intros w.
  destruct (fst (generate_probe 2 3 w)) as [O|] eqn:Hrun;
    [|vm_compute in Hrun; discriminate].
  exists O. split; [reflexivity|].
  apply (probe_entry (Bench.env false) 2 3 w O 1 2 Hrun); lia.
Defined.

(* ================================================================== *)
(** * The weight matrix is not written *)
(* ================================================================== *)

Section Frame.

Context {E : Env}.

Local Open Scope memory_scope.

Lemma nth_error_replace_nth_other {A : Type} (r l : nat) (x : A)
    (h : list A) :
  r <> l -> nth_error (replace_nth r x h) l = nth_error h l.
Proof.
  revert r l; induction h as [|y h IH]; intros [|r] [|l] Hne; simpl;
    try reflexivity; try congruence.
  apply IH. congruence.
Qed.

Lemma nth_error_replace_nth_same {A : Type} (r : nat) (x : A) (h : list A) :
  (r < length h)%nat -> nth_error (replace_nth r x h) r = Some x.
Proof.
  revert r; induction h as [|y h IH]; intros [|r] Hr; simpl in *;
    try lia; try reflexivity.
  apply IH. lia.
Qed.

Lemma keeps_allocated (f : Heap E -> Heap E) (ws : list nat) (h : Heap E)
    (l : nat) :
  keeps f ws -> (l < length h)%nat -> ~ In l ws -> (l < length (f h))%nat.
Proof.
  intros Hk Hl Hn. apply nth_error_Some. rewrite (Hk h l Hl Hn).
  now apply nth_error_Some.
Qed.

Lemma leaves_weaken (l : nat) {A : Type} (c : Run E A) (Q R : A -> Prop) :
  leaves l c Q -> (forall a, Q a -> R a) -> leaves l c R.
Proof.
  intros Hc HQR m Hl. destruct (Hc m Hl) as (H1 & H2 & H3).
  repeat split; auto.
Qed.

Lemma leaves_ret (l : nat) {A : Type} (a : A) :
  leaves l (run_ret (E := E) a) (fun _ => True).
Proof. intros m Hl. repeat split; auto. Qed.

Lemma leaves_check (l : nat) {A : Type} (o : Outcome A) :
  leaves l (run_check (E := E) o) (fun _ => True).
Proof. intros m Hl. repeat split; auto. Qed.

Lemma leaves_load_weights (l r : nat) :
  leaves l (load_weights (E := E) r) (fun _ => True).
Proof.
  intros m Hl. unfold load_weights.
  destruct (nth_error (heap m) r) as [[a|A]|]; repeat split; auto.
Qed.

Lemma leaves_load_dense (l r : nat) :
  leaves l (load_dense (E := E) r) (fun _ => True).
Proof.
  intros m Hl. unfold load_dense.
  destruct (nth_error (heap m) r) as [[a|A]|]; repeat split; auto.
Qed.

(** A new object is not the one at [l]. *)
Lemma leaves_alloc (l : nat) (o : Object E) :
  leaves l (alloc o) (fun r => r <> l).
Proof.
  intros m Hl. unfold alloc; simpl. repeat split.
  - now apply nth_error_app1.
  - rewrite length_app. lia.
  - intros r Hr. injection Hr as <-. lia.
Qed.

Lemma leaves_store (l r : nat) (o : Object E) :
  r <> l -> leaves l (store r o) (fun _ => True).
Proof.
  intros Hne m Hl. unfold store; simpl. repeat split.
  - now apply nth_error_replace_nth_other.
  - now rewrite length_replace_nth.
Qed.

Lemma leaves_effect (l : nat) (f : Heap E -> Heap E) (ws : list nat) :
  keeps f ws -> ~ In l ws -> leaves l (effect f) (fun _ => True).
Proof.
  intros Hk Hn m Hl. unfold effect; simpl. repeat split.
  - now apply Hk.
  - now apply (keeps_allocated f ws).
Qed.

Lemma leaves_bind (l : nat) {A B : Type} (c : Run E A) (k : A -> Run E B)
    (Q : A -> Prop) (R : B -> Prop) :
  leaves l c Q -> (forall a, Q a -> leaves l (k a) R) ->
  leaves l (run_bind c k) R.
Proof.
  intros Hc Hk m Hl. unfold run_bind.
  destruct (Hc m Hl) as (H1 & H2 & H3).
  destruct (c m) as [[a|] m']; simpl in *.
  - destruct (Hk a (H3 a eq_refl) m' H2) as (K1 & K2 & K3).
    repeat split; try assumption. congruence.
  - repeat split; try assumption. discriminate.
Qed.

Lemma leaves_modify (l r : nat) (f : DenseMatrix -> DenseMatrix) :
  r <> l -> leaves l (modify (E := E) r f) (fun _ => True).
Proof.
  intros Hne. unfold modify.
  eapply leaves_bind; [apply leaves_load_dense|].
  intros A _. now apply leaves_store.
Qed.

Lemma leaves_fill_probe (l r : nat) (a : MatrixType E) (n c : nat) :
  r <> l -> leaves l (fill_probe a r n c) (fun _ => True).
Proof.
  intros Hne m Hl. unfold fill_probe.
  destruct (generate_probe n c _) as [[P|] w']; simpl; repeat split; auto.
  - now apply nth_error_replace_nth_other.
  - now rewrite length_replace_nth.
Qed.

Lemma leaves_turns (l r : nat) (turns : list nat) (done : Run E unit) :
  r <> l ->
  leaves l done (fun _ => True) ->
  leaves l
    (fold_left
       (fun done i =>
          done ;;; modify r (fun Y' => orthonormalize_column Y' i))
       turns done)
    (fun _ => True).
Proof.
  intros Hne. revert done. induction turns as [|i turns IH]; intros done Hd;
    simpl; [assumption|].
  apply IH. eapply leaves_bind; [exact Hd|].
  intros _ _. now apply leaves_modify.
Qed.

Lemma leaves_orthonormalize_in_place (l r : nat) :
  r <> l -> leaves l (orthonormalize_in_place (E := E) r) (fun _ => True).
Proof.
  intros Hne. unfold orthonormalize_in_place.
  eapply leaves_bind; [apply leaves_load_dense|].
  intros Y _. apply leaves_turns; [assumption|apply leaves_ret].
Qed.

Section Strategies.

Variable F : Effects E.
Hypothesis HF : writes_only_arguments F.
Variable wm_loc : nat.

Ltac side :=
  solve [ assumption | congruence
        | simpl; intuition congruence ].

Ltac frame_step :=
  first
    [ apply leaves_ret
    | eapply leaves_bind;
      [ first
          [ apply leaves_load_weights | apply leaves_load_dense
          | apply leaves_check | apply leaves_alloc
          | apply leaves_fill_probe; side
          | apply leaves_orthonormalize_in_place; side
          | eapply leaves_effect; [ apply HF | side ] ]
      | intros ? ? ] ].

Lemma leaves_arpack (d s : Z) :
  leaves wm_loc (arpack_embed_mem F wm_loc d s) (fun _ => True).
Proof.
  unfold arpack_embed_mem. destruct (TAPKEE_NO_ARPACK E);
    repeat frame_step.
Qed.

Lemma leaves_dense (d s : Z) :
  leaves wm_loc (dense_embed_mem F wm_loc d s) (fun _ => True).
Proof. unfold dense_embed_mem. repeat frame_step. Qed.

Lemma leaves_randomized (d s : Z) :
  leaves wm_loc (randomized_embed_mem F wm_loc d s) (fun _ => True).
Proof. unfold randomized_embed_mem. repeat frame_step. Qed.

Lemma leaves_dispatch (method d s : Z) :
  leaves wm_loc (eigen_embedding_mem F method wm_loc d s) (fun _ => True).
Proof.
  unfold eigen_embedding_mem.
  destruct (method =? ARPACK E); [apply leaves_arpack|].
  destruct (method =? RANDOMIZED E); [apply leaves_randomized|].
  destruct (method =? EIGEN_DENSE_SELFADJOINT_SOLVER E);
    [apply leaves_dense|apply leaves_ret].
Qed.

End Strategies.

End Frame.

Lemma overwriting_effects_write_only_arguments (E : Env) :
  writes_only_arguments (overwriting_effects E).
Proof.
  unfold writes_only_arguments, keeps. repeat split; simpl.
  - intros _ x h l Hl Hn. apply nth_error_replace_nth_other. intuition.
  - intros l h l' Hl Hn. apply nth_error_replace_nth_other. intuition.
  - intros y b1 h l Hl Hn.
    rewrite !nth_error_replace_nth_other by intuition. reflexivity.
Qed.

(** C10. Let the collaborators write, of the objects that exist when they
    are called, at most the dense matrices they are handed (so that the
    operation and the ARPACK solver, which take the weight matrix by
    reference to [const], do not write it).  Then, whatever the strategy
    ([arpack_embed], [randomized_embed], [dense_embed], or any of them
    reached through [eigen_embedding]) and however the call ends, the
    object behind the reference [wm] is after the call what it was before.
    The strategies themselves only read it: the dense one copies it and has
    the copy decomposed, the randomized one hands it to the matrix operation
    only, and every write of theirs goes to a matrix they declared. *)
Theorem weight_matrix_not_written (E : Env) (F : Effects E) (wm_loc : nat)
    (a : MatrixType E) (method target_dimension skip : Z) (m : Memory E) :
  writes_only_arguments F ->
  nth_error (heap m) wm_loc = Some (Weights a) ->
  nth_error
    (heap (snd (arpack_embed_mem F wm_loc target_dimension skip m))) wm_loc
    = Some (Weights a)
  /\ nth_error
       (heap (snd (randomized_embed_mem F wm_loc target_dimension skip m)))
       wm_loc
     = Some (Weights a)
  /\ nth_error
       (heap (snd (dense_embed_mem F wm_loc target_dimension skip m))) wm_loc
     = Some (Weights a)
  /\ nth_error
       (heap (snd (eigen_embedding_mem F method wm_loc target_dimension skip
                     m)))
       wm_loc
     = Some (Weights a).
Proof.
  intros HF Hwm.
  assert (Hl : (wm_loc < length (heap m))%nat)
    by (apply nth_error_Some; congruence).
  repeat split.
  - destruct (leaves_arpack F HF wm_loc target_dimension skip m Hl)
      as (H & _). congruence.
  - destruct (leaves_randomized F HF wm_loc target_dimension skip m Hl)
      as (H & _). congruence.
  - destruct (leaves_dense F HF wm_loc target_dimension skip m Hl)
      as (H & _). congruence.
  - destruct (leaves_dispatch F HF wm_loc method target_dimension skip m Hl)
      as (H & _). congruence.
Qed.

(** The bench with collaborators that overwrite what they are handed.  The
    weight matrix [diag(1,2,3)] is the second object of the memory.  The
    dense strategy returns; its copy of the weight matrix, the third object,
    has been overwritten by the solver; the weight matrix has not. *)
Lemma weight_matrix_not_written_witness :
  let E := Bench.env false in
  let F := overwriting_effects E in
  let a : MatrixType E := Bench.diag [1; 2; 3]%float in
  let m := mkMemory (E := E) [Dense (E := E) empty_matrix; Weights (E := E) a] 0 in
  (fst (dense_embed_mem F 1 1 1 m) =
     Returned (mkDense 3 [[0; 1; 0]], [3])%float
   /\ nth_error (heap (snd (dense_embed_mem F 1 1 1 m))) 2 =
      Some (Dense (E := E) empty_matrix))
  /\ nth_error (heap (snd (arpack_embed_mem F 1 1 1 m))) 1 =
     Some (Weights (E := E) a)
  /\ nth_error (heap (snd (randomized_embed_mem F 1 1 1 m))) 1 =
     Some (Weights (E := E) a)
  /\ nth_error (heap (snd (dense_embed_mem F 1 1 1 m))) 1 =
     Some (Weights (E := E) a)
  /\ nth_error (heap (snd (eigen_embedding_mem F 2 1 1 1 m))) 1 =
     Some (Weights (E := E) a).
Proof.
  intros E F a m. split.
  - split; vm_compute; reflexivity.
  - apply (weight_matrix_not_written E F 1 a 2 1 1 m).
    + apply overwriting_effects_write_only_arguments.
    + reflexivity.
Defined.

(* ================================================================== *)
(** * The memory runs and the value runs agree *)
(* ================================================================== *)

Section Agreement.

Context {E : Env}.

Local Open Scope memory_scope.

Lemma replace_nth_twice {A : Type} (l : nat) (x y : A) (h : list A) :
  replace_nth l x (replace_nth l y h) = replace_nth l x h.
Proof.
  revert l; induction h as [|z h IH]; intros [|l]; simpl; try reflexivity.
  now rewrite IH.
Qed.

Lemma replace_nth_held {A : Type} (l : nat) (x : A) (h : list A) :
  nth_error h l = Some x -> replace_nth l x h = h.
Proof.
  revert l; induction h as [|z h IH]; intros [|l] H; simpl in *;
    try discriminate.
  - now injection H as ->.
  - now rewrite IH.
Qed.

Lemma nth_error_new {A : Type} (h : list A) (x : A) :
  nth_error (h ++ [x]) (length h) = Some x.
Proof.
  rewrite nth_error_app2 by lia. now rewrite Nat.sub_diag.
Qed.

Lemma run_load_weights (l : nat) (a : MatrixType E) {B : Type}
    (k : MatrixType E -> Run E B) (m : Memory E) :
  nth_error (heap m) l = Some (Weights a) ->
  run_bind (load_weights l) k m = k a m.
Proof. intros H. unfold run_bind, load_weights. now rewrite H. Qed.

Lemma run_load_dense (l : nat) (A : DenseMatrix) {B : Type}
    (k : DenseMatrix -> Run E B) (m : Memory E) :
  nth_error (heap m) l = Some (Dense A) ->
  run_bind (load_dense l) k m = k A m.
Proof. intros H. unfold run_bind, load_dense. now rewrite H. Qed.

Lemma run_turns (l : nat) (turns : list nat) (done : Run E unit)
    (m : Memory E) (Y1 : DenseMatrix) :
  (l < length (heap m))%nat ->
  done m =
    (Returned tt,
     mkMemory (replace_nth l (Dense Y1) (heap m)) (generator m)) ->
  fold_left
    (fun done i => done ;;; modify l (fun Y' => orthonormalize_column Y' i))
    turns done m =
  (Returned tt,
   mkMemory
     (replace_nth l (Dense (fold_left orthonormalize_column turns Y1))
        (heap m))
     (generator m)).
Proof.
  intros Hl. revert done Y1.
  induction turns as [|i turns IH]; intros done Y1 Hdone; simpl;
    [assumption|].
  apply IH. unfold run_bind at 1. rewrite Hdone.
  unfold modify.
  rewrite (run_load_dense l Y1)
    by (simpl; now apply nth_error_replace_nth_same).
  unfold store; simpl. now rewrite replace_nth_twice.
Qed.

(** The loop in place leaves in [Y] what the pass computes. *)
Lemma run_orthonormalize_in_place (l : nat) (Y0 : DenseMatrix)
    (m : Memory E) :
  nth_error (heap m) l = Some (Dense Y0) ->
  orthonormalize_in_place l m =
  (Returned tt,
   mkMemory (replace_nth l (Dense (orthonormalize Y0)) (heap m))
     (generator m)).
Proof.
  intros H. unfold orthonormalize_in_place.
  rewrite (run_load_dense l Y0) by assumption.
  apply run_turns.
  - apply nth_error_Some. congruence.
  - unfold run_ret. rewrite replace_nth_held by assumption.
    now destruct m.
Qed.

(** Dense strategy: the copy is what the solver is given. *)
Lemma agree_dense (F : Effects E) (wm_loc : nat) (a : MatrixType E) (d s : Z) (m : Memory E) :
  nth_error (heap m) wm_loc = Some (Weights a) ->
  fst (dense_embed_mem F wm_loc d s m) =
  fst (dense_embed d s (@mkWorld E a (generator m) [])).
Proof.
  intros Hwm. rewrite dense_embed_run. simpl.
  unfold dense_embed_mem.
  rewrite (run_load_weights wm_loc a) by assumption.
  unfold run_bind at 1. unfold alloc at 1.
  rewrite (run_load_dense (length (heap m)) (to_dense E a))
    by (simpl; apply nth_error_new).
  unfold run_bind at 1. unfold effect at 1.
  unfold run_bind at 1. unfold run_check at 1.
  destruct (block _ _ _ _ _); [|reflexivity].
  unfold run_bind at 1. unfold alloc at 1.
  unfold run_bind at 1. unfold run_check at 1.
  destruct (tail _ _); reflexivity.
Qed.

(** ARPACK strategy: the operator is read, never copied. *)
Lemma agree_arpack (F : Effects E) (wm_loc : nat) (a : MatrixType E) (d s : Z) (m : Memory E) :
  nth_error (heap m) wm_loc = Some (Weights a) ->
  fst (arpack_embed_mem F wm_loc d s m) =
  fst (arpack_embed d s (@mkWorld E a (generator m) [])).
Proof.
  intros Hwm. unfold arpack_embed_mem.
  destruct (TAPKEE_NO_ARPACK E) eqn:Hflag.
  - unfold arpack_embed. rewrite Hflag. reflexivity.
  - rewrite arpack_embed_run by assumption. simpl.
    rewrite (run_load_weights wm_loc a) by assumption.
    unfold run_bind at 1. unfold effect at 1.
    unfold run_bind at 1. unfold run_check at 1.
    destruct (block _ _ _ _ _); [|reflexivity].
    unfold run_bind at 1. unfold alloc at 1.
    unfold run_bind at 1. unfold run_check at 1.
    destruct (tail _ _); reflexivity.
Qed.

(** Randomized strategy: the basis read back for the lift is the one the
    loop in place left, provided no collaborator wrote to it. *)
Lemma agree_randomized (F : Effects E) (wm_loc : nat) (a : MatrixType E) (d s : Z) (m : Memory E) :
  writes_nothing F ->
  nth_error (heap m) wm_loc = Some (Weights a) ->
  fst (randomized_embed_mem F wm_loc d s m) =
    fst (randomized_embed d s (@mkWorld E a (generator m) []))
  /\ generator (snd (randomized_embed_mem F wm_loc d s m)) =
     rng (snd (randomized_embed d s (@mkWorld E a (generator m) []))).
Proof.
  intros (Hop & _ & Heig & Hqr) Hwm.
  cut (exists h, randomized_embed_mem F wm_loc d s m =
         (fst (randomized_embed d s (@mkWorld E a (generator m) [])),
          mkMemory h (rng (snd (randomized_embed d s (@mkWorld E a (generator m) [])))))).
  { intros [h ->]. split; reflexivity. }
  destruct (randomized_embed_by_probe E d s (@mkWorld E a (generator m) []))
    as (P & w1 & Hprobe & ->). simpl in Hprobe. simpl.
  unfold randomized_embed_mem.
  rewrite (run_load_weights wm_loc a) by assumption.
  unfold run_bind at 1. unfold alloc at 1.
  set (O := length (heap m)).
  unfold run_bind at 1. unfold fill_probe at 1. simpl heap. simpl generator.
  rewrite Hprobe.
  set (h2 := replace_nth O _ _).
  assert (HO : nth_error h2 O = Some (Dense P)).
  { apply nth_error_replace_nth_same. rewrite length_app. simpl. lia. }
  rewrite (run_load_dense O P) by exact HO.
  unfold run_bind at 1. unfold effect at 1. simpl heap. simpl generator.
  set (h3 := operation_effect F wm_loc O h2).
  unfold run_bind at 1. unfold alloc at 1. simpl heap. simpl generator.
  set (Y := length h3).
  unfold run_bind at 1.
  rewrite (run_orthonormalize_in_place Y (operation E a P))
    by (simpl; apply nth_error_new).
  simpl heap. simpl generator.
  set (basis := orthonormalize (operation E a P)).
  set (h5 := replace_nth Y (Dense basis) (h3 ++ _)).
  assert (HlY : (Y < length h5)%nat).
  { unfold h5. rewrite length_replace_nth, length_app. simpl. lia. }
  assert (HY : nth_error h5 Y = Some (Dense basis)).
  { apply nth_error_replace_nth_same. rewrite length_app. simpl. lia. }
  rewrite (run_load_dense Y basis) by exact HY.
  unfold run_bind at 1. unfold effect at 1. simpl heap. simpl generator.
  set (h6 := operation_effect F wm_loc Y h5).
  assert (HY6 : nth_error h6 Y = Some (Dense basis)).
  { unfold h6. rewrite (Hop wm_loc Y h5 Y HlY) by (simpl; tauto). exact HY. }
  assert (HlY6 : (Y < length h6)%nat) by (apply nth_error_Some; congruence).
  unfold run_bind at 1. unfold alloc at 1. simpl heap. simpl generator.
  set (B1 := length h6).
  rewrite (run_load_dense B1 (operation E a basis))
    by (simpl; apply nth_error_new).
  unfold run_bind at 1. unfold effect at 1. simpl heap. simpl generator.
  set (h7 := h6 ++ _).
  assert (HY7 : nth_error h7 Y = Some (Dense basis)).
  { unfold h7. rewrite nth_error_app1 by assumption. exact HY6. }
  assert (HlY7 : (Y < length h7)%nat) by (apply nth_error_Some; congruence).
  set (h8 := qr_effect F Y B1 h7).
  assert (HY8 : nth_error h8 Y = Some (Dense basis)).
  { unfold h8. rewrite (Hqr Y B1 h7 Y HlY7) by (simpl; tauto). exact HY7. }
  assert (HlY8 : (Y < length h8)%nat) by (apply nth_error_Some; congruence).
  unfold run_bind at 1. unfold alloc at 1. simpl heap. simpl generator.
  set (B := length h8).
  rewrite (run_load_dense B
             (householder_qr_solve E basis (operation E a basis)))
    by (simpl; apply nth_error_new).
  unfold run_bind at 1. unfold effect at 1. simpl heap. simpl generator.
  set (h9 := h8 ++ _).
  assert (HY9 : nth_error h9 Y = Some (Dense basis)).
  { unfold h9. rewrite nth_error_app1 by assumption. exact HY8. }
  assert (HlY9 : (Y < length h9)%nat) by (apply nth_error_Some; congruence).
  set (h10 := eigen_effect F B h9).
  assert (HY10 : nth_error h10 Y = Some (Dense basis)).
  { unfold h10. rewrite (Heig B h9 Y HlY9) by (simpl; tauto). exact HY9. }
  rewrite (run_load_dense Y basis) by exact HY10.
  unfold rayleigh_ritz_outcome. fold basis.
  unfold run_bind at 1. unfold run_check at 1.
  destruct (mat_mul _ _) as [lifted|]; [|eexists; reflexivity].
  unfold run_bind at 1. unfold run_check at 1.
  destruct (block _ _ _ _ _) as [X|]; eexists; reflexivity.
Qed.

End Agreement.

Lemma no_effects_write_nothing (E : Env) : writes_nothing (no_effects E).
Proof.
  unfold writes_nothing, keeps. repeat split; reflexivity.
Qed.

(** X18. When the collaborators write to no matrix, running a strategy on
    the memory, with the weights at [wm_loc], returns what the strategy
    returns on the weights themselves, for each of the three strategies and
    for the dispatcher; the randomized strategy also leaves the generator
    in the same state. *)
Theorem memory_runs_agree (E : Env) (F : Effects E) (wm_loc : nat)
    (a : MatrixType E) (method target_dimension skip : Z) (m : Memory E) :
  writes_nothing F ->
  nth_error (heap m) wm_loc = Some (Weights a) ->
  let w := @mkWorld E a (generator m) [] in
  fst (arpack_embed_mem F wm_loc target_dimension skip m)
    = fst (arpack_embed target_dimension skip w)
  /\ fst (randomized_embed_mem F wm_loc target_dimension skip m)
    = fst (randomized_embed target_dimension skip w)
  /\ generator (snd (randomized_embed_mem F wm_loc target_dimension skip m))
    = rng (snd (randomized_embed target_dimension skip w))
  /\ fst (dense_embed_mem F wm_loc target_dimension skip m)
    = fst (dense_embed target_dimension skip w)
  /\ fst (eigen_embedding_mem F method wm_loc target_dimension skip m)
    = fst (eigen_embedding method target_dimension skip w).
Proof.
  intros HF Hwm w.
  pose proof (agree_arpack F wm_loc a target_dimension skip m Hwm) as Ha.
  pose proof (agree_randomized F wm_loc a target_dimension skip m HF Hwm)
    as [Hr Hg].
  pose proof (agree_dense F wm_loc a target_dimension skip m Hwm) as Hd.
  repeat split; try assumption.
  unfold eigen_embedding_mem, eigen_embedding.
  destruct (method =? ARPACK E); [assumption|].
  destruct (method =? RANDOMIZED E); [assumption|].
  destruct (method =? EIGEN_DENSE_SELFADJOINT_SOLVER E); [assumption|].
  reflexivity.
Qed.

(** The bench with collaborators that write nothing, the weight matrix
    [diag(1,2)] the only object of the memory: the randomized strategy,
    run on the memory, returns the embedding and the eigenvalues it returns
    on the weights. *)
Lemma memory_runs_agree_witness :
  let E := Bench.env false in
  let F := no_effects E in
  let a : MatrixType E := Bench.diag [1; 2]%float in
  let m := mkMemory (E := E) [Weights (E := E) a] (rng (Bench.world false [1; 2]%float)) in
  let w := @mkWorld E a (generator m) [] in
  fst (randomized_embed_mem F 0 1 1 m) =
    Returned (mkDense 2 [[0x1.1a62633145c07p-53; 1]], [1; 2])%float
  /\ fst (arpack_embed_mem F 0 1 1 m) = fst (arpack_embed 1 1 w)
  /\ fst (randomized_embed_mem F 0 1 1 m) = fst (randomized_embed 1 1 w)
  /\ generator (snd (randomized_embed_mem F 0 1 1 m))
     = rng (snd (randomized_embed 1 1 w))
  /\ fst (dense_embed_mem F 0 1 1 m) = fst (dense_embed 1 1 w)
  /\ fst (eigen_embedding_mem F 1 0 1 1 m) = fst (eigen_embedding 1 1 1 w).
Proof.
  intros E F a m w. split.
  - vm_compute. reflexivity.
  - apply (memory_runs_agree E F 0 a 1 1 1 m).
    + apply no_effects_write_nothing.
    + reflexivity.
Defined.
